(** * ZPromise: a Promises/A+ deferred value, verified over a shallow embedding

    The development follows [src/core.js].  The functions of the file
    ([getType], [resolveNextPromise], the constructor and the methods
    [resolve], [reject] and [then] of class [ZPromise]) are Rocq functions
    over an explicit JavaScript store: the heap of promise objects, the
    [called] cells captured by closures, the queue of [setTimeout], and a
    trace of observable events.  The closures that core.js creates are the
    constructors of [core_fn]; the code of callers (executors, reactions,
    foreign thenables) is data, a small command language, so that theorems
    quantify over it. *)

From stdpp Require Import base option list strings gmap.
From Stdlib Require Import ZArith Lia.

Open Scope string_scope.
Open Scope list_scope.
Open Scope stdpp_scope.

(** ** Values *)

Inductive promise_state := pending | fulfilled | rejected.

#[global] Instance promise_state_eq_dec : EqDecision promise_state.
Proof. solve_decision. Defined.

(** A JavaScript value.  [VZPromise p] is the instance of class ZPromise at
    address [p] of the heap; [VCore f] is a function created by core.js;
    [VForeign tag call thenP] is any other object or function: [tag] is
    what [Object.prototype.toString] puts between "[object " and "]",
    [call] is its body when it is callable, [thenP] its [then] property. *)
Inductive value :=
| VUndefined
| VNull
| VBool (b : bool)
| VNum (n : Z)
| VStr (s : string)
| VError (name msg : string)
| VZPromise (p : nat)
| VCore (f : core_fn)
| VForeign (tag : string) (call : option (list cmd)) (thenP : property)

with property :=
| PAbsent
| PData (v : value)
| PGetter (body : list cmd)

(** The functions created by core.js, each with the variables it closes
    over.  [c] is the address of the [called] cell of lines 66-98. *)
with core_fn :=
| BoundResolve (this : nat)                       (* this.resolve.bind(this), line 151 *)
| BoundReject (this : nat)                        (* this.reject.bind(this), line 151 *)
| Unwrap (p : nat) (resolve reject : value)       (* line 46, first argument *)
| ResolvePromise (c : nat) (p : nat) (resolve reject : value)   (* lines 75-80 *)
| RejectPromise (c : nat) (reject : value)        (* lines 81-86 *)
| ThenExecutor (this p : nat) (onFulfilled onRejected : value)  (* lines 195-277 *)
| FulfilledTask (this p : nat) (onFulfilled resolve reject : value) (* lines 197-220, 248-259 *)
| RejectedTask (this p : nat) (onRejected resolve reject : value)   (* lines 224-239, 263-274 *)
| QueuedFulfilled (this p : nat) (onFulfilled resolve reject : value) (* lines 243-260 *)
| QueuedRejected (this p : nat) (onRejected resolve reject : value)   (* lines 262-275 *)

(** The code of callers. *)
with cmd :=
| CLog (n : nat)                                  (* an observable effect *)
| CSet (x : nat) (e : expr)                       (* x = e *)
| CCall (x : nat) (f : expr) (args : list expr)   (* x = f(args) *)
| CNew (x : nat) (executor : expr)                (* x = new ZPromise(executor) *)
| CThen (x : nat) (recv onFulfilled onRejected : expr) (* x = recv.then(..) *)
| CSetTimeout (f : expr)                          (* setTimeout(f) *)
| CThrow (e : expr)
| CReturn (e : expr)

with expr :=
| EConst (v : value)
| EArg (i : nat)
| EThis
| EVar (x : nat).

Inductive event :=
| EvLog (n : nat)
| EvGetThen (x : value)                  (* core.js read x.then, line 55 *)
| EvInvoke (f this : value) (args : list value) (* a foreign function entered *)
| EvUncaught (e : value).                (* a task of the timer queue threw *)

Record ZPromise := mkZPromise {
  PromiseState : promise_state;
  PromiseResult : value;
  onFulfilledCallbacks : list value;
  onRejectedCallbacks : list value;
}.

Record state := mkState {
  heap : list ZPromise;     (* the ZPromise instances, by address *)
  cells : list bool;        (* the [called] variables, by address *)
  timers : list value;      (* callbacks given to setTimeout, oldest first *)
  vars : gmap nat value;    (* variables of the callers' code *)
  trace : list event;
}.

Definition initial : state := mkState [] [] [] ∅ [].

Definition set_heap (f : list ZPromise → list ZPromise) (s : state) : state :=
  mkState (f (heap s)) (cells s) (timers s) (vars s) (trace s).
Definition set_cells (f : list bool → list bool) (s : state) : state :=
  mkState (heap s) (f (cells s)) (timers s) (vars s) (trace s).
Definition set_timers (f : list value → list value) (s : state) : state :=
  mkState (heap s) (cells s) (f (timers s)) (vars s) (trace s).
Definition set_vars (f : gmap nat value → gmap nat value) (s : state) : state :=
  mkState (heap s) (cells s) (timers s) (f (vars s)) (trace s).
Definition set_trace (f : list event → list event) (s : state) : state :=
  mkState (heap s) (cells s) (timers s) (vars s) (f (trace s)).

(** ** Computations: state passing, with exceptions *)

Inductive outcome :=
| Return (v : value)
| Throw (e : value)
| OutOfFuel.

Definition M := state → outcome * state.

Definition ret (v : value) : M := fun s => (Return v, s).
Definition throw (e : value) : M := fun s => (Throw e, s).

Definition bind (m : M) (k : value → M) : M := fun s =>
  match m s with
  | (Return v, s') => k v s'
  | (Throw e, s') => (Throw e, s')
  | (OutOfFuel, s') => (OutOfFuel, s')
  end.

(** try { m } catch (error) { h error } *)
Definition try_catch (m : M) (h : value → M) : M := fun s =>
  match m s with
  | (Throw e, s') => h e s'
  | r => r
  end.

Notation "'let*' x ':=' m 'in' k" := (bind m (fun x => k))
  (at level 10, x name, m at level 100, k at level 200, only parsing).
Notation "m '>>' k" := (bind m (fun _ => k))
  (at level 100, k at level 200, right associativity, only parsing).

Definition log (e : event) : M := fun s =>
  (Return VUndefined, set_trace (fun t => t ++ [e]) s).

Definition TypeError (msg : string) : value := VError "TypeError" msg.
Definition ReferenceError (msg : string) : value := VError "ReferenceError" msg.

(** ** core.js *)

(** [getType], lines 6-8: Object.prototype.toString.call(val). *)
Definition getType (val : value) : string :=
  match val with
  | VUndefined => "[object Undefined]"
  | VNull => "[object Null]"
  | VBool _ => "[object Boolean]"
  | VNum _ => "[object Number]"
  | VStr _ => "[object String]"
  | VError _ _ => "[object Error]"
  | VZPromise _ => "[object Object]"
  | VCore _ => "[object Function]"
  | VForeign tag _ _ => "[object " +:+ tag +:+ "]"
  end.

(** The operator [typeof]. *)
Definition typeof (val : value) : string :=
  match val with
  | VUndefined => "undefined"
  | VNull => "object"
  | VBool _ => "boolean"
  | VNum _ => "number"
  | VStr _ => "string"
  | VError _ _ => "object"
  | VZPromise _ => "object"
  | VCore _ => "function"
  | VForeign _ (Some _) _ => "function"
  | VForeign _ None _ => "object"
  end.

(** [p === x] where [p] is a ZPromise: identity of heap objects. *)
Definition same_object (p : nat) (x : value) : bool :=
  match x with
  | VZPromise q => Nat.eqb p q
  | _ => false
  end.

Definition arg (i : nat) (args : list value) : value :=
  default VUndefined (args !! i).

(** setTimeout(f): no delay is ever given, the queue is first in first out. *)
Definition setTimeout (f : value) : M := fun s =>
  (Return VUndefined, set_timers (fun q => q ++ [f]) s).

Fixpoint forEach (l : list value) (f : value → M) : M :=
  match l with
  | [] => ret VUndefined
  | x :: l' => f x >> forEach l' f
  end.

(** Field reads of [this]; an address that was never allocated has no
    object behind it. *)
Definition get_this (this : nat) (k : ZPromise → M) : M := fun s =>
  match heap s !! this with
  | Some o => k o s
  | None => (Throw (TypeError "Cannot read properties of undefined"), s)
  end.

Definition put_this (this : nat) (o : ZPromise) : M := fun s =>
  (Return VUndefined, set_heap (fun h => <[this := o]> h) s).

Definition get_called (c : nat) (k : bool → M) : M := fun s =>
  match cells s !! c with
  | Some b => k b s
  | None => (Throw (ReferenceError "called is not defined"), s)
  end.

Definition set_called (c : nat) : M := fun s =>
  (Return VUndefined, set_cells (fun l => <[c := true]> l) s).

Definition eval (e : expr) (this : value) (args : list value) (s : state) : value :=
  match e with
  | EConst v => v
  | EArg i => arg i args
  | EThis => this
  | EVar x => default VUndefined (vars s !! x)
  end.

Definition set_var (x : nat) (v : value) : M := fun s =>
  (Return VUndefined, set_vars (fun m => <[x := v]> m) s).

Section Core.
(** [call f this args] is f.call(this, ...args); the functions of core.js
    are written over it and the knot is tied by [call_fn] below. *)
Variable call : value → value → list value → M.

(** ZPromise.prototype.resolve, lines 162-170. *)
Definition ZPromise_resolve (this : nat) (data : value) : M :=
  get_this this (fun o =>
    match PromiseState o with
    | pending =>
        put_this this (mkZPromise fulfilled data
                         (onFulfilledCallbacks o) (onRejectedCallbacks o)) >>
        forEach (onFulfilledCallbacks o) (fun callback => call callback VUndefined [])
    | _ => ret VUndefined
    end).

(** ZPromise.prototype.reject, lines 177-185. *)
Definition ZPromise_reject (this : nat) (reason : value) : M :=
  get_this this (fun o =>
    match PromiseState o with
    | pending =>
        put_this this (mkZPromise rejected reason
                         (onFulfilledCallbacks o) (onRejectedCallbacks o)) >>
        forEach (onRejectedCallbacks o) (fun callback => call callback VUndefined [])
    | _ => ret VUndefined
    end).

(** The constructor, lines 142-155.  The new object is at the first free
    address. *)
Definition ZPromise_new (executor : value) : M :=
  if negb (String.eqb (typeof executor) "function")
  then throw (TypeError "Promise executor is not a function")
  else fun s =>
    let this := length (heap s) in
    (try_catch
       (call executor VUndefined [VCore (BoundResolve this); VCore (BoundReject this)])
       (fun error => ZPromise_reject this error) >>
     ret (VZPromise this))
      (set_heap (fun h => h ++ [mkZPromise pending VNull [] []]) s).

(** ZPromise.prototype.then, lines 193-280.  The constant [p] of line 195
    is the object under construction. *)
Definition ZPromise_then (this : nat) (onFulfilled onRejected : value) : M := fun s =>
  let p := length (heap s) in
  ZPromise_new (VCore (ThenExecutor this p onFulfilled onRejected)) s.

(** The read [x.then] of line 55. *)
Definition get_then (x : value) : M :=
  log (EvGetThen x) >>
  match x with
  | VForeign _ _ (PData v) => ret v
  | VForeign _ _ (PGetter body) => call (VForeign "Function" (Some body) PAbsent) x []
  | _ => ret VUndefined
  end.

(** [resolveNextPromise], lines 17-106. *)
Definition resolveNextPromise (p : nat) (x resolve reject : value) : M :=
  if same_object p x
  then throw (TypeError "Chaining cycle detected for promise")
  else
    match x with
    | VZPromise q =>
        ZPromise_then q (VCore (Unwrap p resolve reject)) reject >> ret VUndefined
    | _ =>
        if String.eqb (getType x) "[object Object]"
           || String.eqb (getType x) "[object Function]"
        then
          let* thenFunc :=
            try_catch (get_then x)
              (fun error => call reject VUndefined [error] >> ret VUndefined) in
          if String.eqb (getType thenFunc) "[object Function]"
          then fun s =>
            let c := length (cells s) in
            (try_catch
               (call thenFunc x [VCore (ResolvePromise c p resolve reject);
                                 VCore (RejectPromise c reject)])
               (fun error =>
                  get_called c (fun called =>
                    if called then ret VUndefined
                    else set_called c >> call reject VUndefined [error])) >>
             ret VUndefined)
              (set_cells (fun l => l ++ [false]) s)
          else call resolve VUndefined [x] >> ret VUndefined
        else call resolve VUndefined [x] >> ret VUndefined
    end.

(** The bodies of the functions that core.js creates. *)
Definition call_core (f : core_fn) (args : list value) : M :=
  match f with
  | BoundResolve this => ZPromise_resolve this (arg 0 args)
  | BoundReject this => ZPromise_reject this (arg 0 args)
  | Unwrap p resolve reject => resolveNextPromise p (arg 0 args) resolve reject
  | ResolvePromise c p resolve reject =>
      get_called c (fun called =>
        if called then ret VUndefined
        else set_called c >> resolveNextPromise p (arg 0 args) resolve reject)
  | RejectPromise c reject =>
      get_called c (fun called =>
        if called then ret VUndefined
        else set_called c >> call reject VUndefined [arg 0 args] >> ret VUndefined)
  | ThenExecutor this p onFulfilled onRejected =>
      let resolve := arg 0 args in
      let reject := arg 1 args in
      get_this this (fun o =>
        if decide (PromiseState o = fulfilled)
        then setTimeout (VCore (FulfilledTask this p onFulfilled resolve reject))
        else ret VUndefined) >>
      get_this this (fun o =>
        if decide (PromiseState o = rejected)
        then setTimeout (VCore (RejectedTask this p onRejected resolve reject))
        else ret VUndefined) >>
      get_this this (fun o =>
        if decide (PromiseState o = pending)
        then
          get_this this (fun o1 =>
            put_this this (mkZPromise (PromiseState o1) (PromiseResult o1)
               (onFulfilledCallbacks o1 ++
                  [VCore (QueuedFulfilled this p onFulfilled resolve reject)])
               (onRejectedCallbacks o1))) >>
          get_this this (fun o2 =>
            put_this this (mkZPromise (PromiseState o2) (PromiseResult o2)
               (onFulfilledCallbacks o2)
               (onRejectedCallbacks o2 ++
                  [VCore (QueuedRejected this p onRejected resolve reject)])))
        else ret VUndefined)
  | FulfilledTask this p onFulfilled resolve reject =>
      try_catch
        (if String.eqb (typeof onFulfilled) "function"
         then
           get_this this (fun o =>
             let* resultX := call onFulfilled VUndefined [PromiseResult o] in
             resolveNextPromise p resultX resolve reject)
         else
           get_this this (fun o =>
             call resolve VUndefined [PromiseResult o] >> ret VUndefined))
        (fun error => call reject VUndefined [error] >> ret VUndefined)
  | RejectedTask this p onRejected resolve reject =>
      try_catch
        (if String.eqb (typeof onRejected) "function"
         then
           get_this this (fun o =>
             let* reasonX := call onRejected VUndefined [PromiseResult o] in
             resolveNextPromise p reasonX resolve reject)
         else
           get_this this (fun o =>
             call reject VUndefined [PromiseResult o] >> ret VUndefined))
        (fun error => call reject VUndefined [error] >> ret VUndefined)
  | QueuedFulfilled this p onFulfilled resolve reject =>
      setTimeout (VCore (FulfilledTask this p onFulfilled resolve reject))
  | QueuedRejected this p onRejected resolve reject =>
      setTimeout (VCore (RejectedTask this p onRejected resolve reject))
  end.

(** The callers' code. *)
Fixpoint run_cmds (cs : list cmd) (this : value) (args : list value) : M :=
  match cs with
  | [] => ret VUndefined
  | c :: cs' =>
      match c with
      | CLog n => log (EvLog n) >> run_cmds cs' this args
      | CSet x e => fun s =>
          (set_var x (eval e this args s) >> run_cmds cs' this args) s
      | CCall x f es => fun s =>
          (let* v := call (eval f this args s) VUndefined
                       (map (fun e => eval e this args s) es) in
           set_var x v >> run_cmds cs' this args) s
      | CNew x executor => fun s =>
          (let* v := ZPromise_new (eval executor this args s) in
           set_var x v >> run_cmds cs' this args) s
      | CThen x recv onFulfilled onRejected => fun s =>
          match eval recv this args s with
          | VZPromise q =>
              (let* v := ZPromise_then q (eval onFulfilled this args s)
                           (eval onRejected this args s) in
               set_var x v >> run_cmds cs' this args) s
          | _ => (Throw (TypeError "then is not a function"), s)
          end
      | CSetTimeout f => fun s =>
          (setTimeout (eval f this args s) >> run_cmds cs' this args) s
      | CThrow e => fun s => (Throw (eval e this args s), s)
      | CReturn e => fun s => (Return (eval e this args s), s)
      end
  end.

(** One call, of a function of core.js or of a foreign function. *)
Definition call_step (f this : value) (args : list value) : M :=
  match f with
  | VCore g => call_core g args
  | VForeign _ (Some body) _ =>
      log (EvInvoke f this args) >> run_cmds body this args
  | _ => throw (TypeError "not a function")
  end.
End Core.

(** Calls nest without bound (a chain of thenables may be infinite, see the
    comment of lines 18-36), so [call_fn] counts the depth of nesting. *)
Fixpoint call_fn (fuel : nat) (f this : value) (args : list value) : M :=
  match fuel with
  | O => fun s => (OutOfFuel, s)
  | S n => call_step (call_fn n) f this args
  end.

Arguments call_fn : simpl never.

(** ** The timer queue *)

(** One turn of the event loop: the oldest timer runs to completion; what it
    throws is reported and dropped. *)
Definition turn (fuel : nat) (s : state) : option state :=
  match timers s with
  | [] => None
  | t :: rest =>
      let '(o, s') := call_fn fuel t VUndefined [] (set_timers (fun _ => rest) s) in
      Some (match o with
            | Throw e => set_trace (fun tr => tr ++ [EvUncaught e]) s'
            | _ => s'
            end)
  end.

Fixpoint run_loop (turns fuel : nat) (s : state) : state :=
  match turns with
  | O => s
  | S n =>
      match turn fuel s with
      | None => s
      | Some s' => run_loop n fuel s'
      end
  end.

(** A caller's program: the main script, then the timers. *)
Definition run_main (turns fuel : nat) (main : list cmd) : state :=
  run_loop turns fuel (snd (run_cmds (call_fn fuel) main VUndefined [] initial)).

(** * The vocabulary of the statements *)

(** ** Observations *)

(** What a store says of the object at address [p], and of the exceptions
    that escaped the timers. *)
Definition state_of (s : state) (p : nat) : option promise_state :=
  PromiseState <$> heap s !! p.

Definition result_of (s : state) (p : nat) : option value :=
  PromiseResult <$> heap s !! p.

Definition uncaught (s : state) : list value :=
  omap (fun e => match e with EvUncaught v => Some v | _ => None end) (trace s).

(** ** What a computation may do to the store *)

(** The reaction queues hold only the closures that [then] pushes. *)
Definition is_queued (v : value) : Prop :=
  match v with
  | VCore (QueuedFulfilled _ _ _ _ _) | VCore (QueuedRejected _ _ _ _ _) => True
  | _ => False
  end.

(** Well-formed objects and stores. *)
Definition wf_obj (o : ZPromise) : Prop :=
  Forall is_queued (onFulfilledCallbacks o) ∧ Forall is_queued (onRejectedCallbacks o).

Definition wf (s : state) : Prop := ∀ p o, heap s !! p = Some o → wf_obj o.

Definition extended (q q' : list value) : Prop :=
  ∃ e, q' = q ++ e ∧ Forall is_queued e.

(** The life of one object: settled objects are frozen, queues only grow. *)
Definition obj_evolves (o o' : ZPromise) : Prop :=
  (PromiseState o ≠ pending → o' = o) ∧
  extended (onFulfilledCallbacks o) (onFulfilledCallbacks o') ∧
  extended (onRejectedCallbacks o) (onRejectedCallbacks o').

Record evolves (s s' : state) : Prop := mkEvolves {
  ev_old : ∀ p o, heap s !! p = Some o → ∃ o', heap s' !! p = Some o' ∧ obj_evolves o o';
  ev_new : ∀ p o', heap s' !! p = Some o' → heap s !! p = None → wf_obj o';
  ev_cells : ∀ c b, cells s !! c = Some b →
                    ∃ b', cells s' !! c = Some b' ∧ (b = true → b' = true);
  ev_trace : trace s `prefix_of` trace s';
}.

(** Inside one call the timer queue only grows, at its end. *)
Definition grows (s s' : state) : Prop :=
  evolves s s' ∧ timers s `prefix_of` timers s'.

(** A computation that keeps to [grows] from every store. *)
Definition preserves (m : M) : Prop := ∀ s, grows s (m s).2.

(** The timers that a drained queue schedules, entry by entry. *)
Definition scheduled (callback : value) : value :=
  match callback with
  | VCore (QueuedFulfilled this p onFulfilled resolve reject) =>
      VCore (FulfilledTask this p onFulfilled resolve reject)
  | VCore (QueuedRejected this p onRejected resolve reject) =>
      VCore (RejectedTask this p onRejected resolve reject)
  | v => v
  end.

(** ** The store after [then] and after a settlement *)

(** The object that the constructor sets up (lines 145-148). *)
Definition fresh : ZPromise := mkZPromise pending VNull [] [].

(** The store in which the constructor calls the executor (lines 145-148). *)
Definition allocate (s : state) : state :=
  set_heap (fun h => h ++ [fresh]) s.

(** The store after [this.then(onFulfilled, onRejected)], by the state of
    [this]: a timer when it is settled, one entry in each queue when it is
    pending.  [p] is the address of the new object. *)
Definition then_store (this : nat) (onFulfilled onRejected : value)
    (o : ZPromise) (s : state) : state :=
  let p := length (heap s) in
  let resolve := VCore (BoundResolve p) in
  let reject := VCore (BoundReject p) in
  match PromiseState o with
  | fulfilled =>
      set_timers (fun q => q ++ [VCore (FulfilledTask this p onFulfilled resolve reject)])
        (allocate s)
  | rejected =>
      set_timers (fun q => q ++ [VCore (RejectedTask this p onRejected resolve reject)])
        (allocate s)
  | pending =>
      set_heap (fun h =>
        <[this := mkZPromise pending (PromiseResult o)
            (onFulfilledCallbacks o ++
               [VCore (QueuedFulfilled this p onFulfilled resolve reject)])
            (onRejectedCallbacks o ++
               [VCore (QueuedRejected this p onRejected resolve reject)])]> h)
        (allocate s)
  end.

(** The store after a pending [this] is settled with [v], its queue [q]
    being drained. *)
Definition settle_store (this : nat) (st : promise_state) (v : value)
    (o : ZPromise) (q : list value) (s : state) : state :=
  set_timers (fun t => t ++ map scheduled q)
    (set_heap (fun h => <[this := mkZPromise st v (onFulfilledCallbacks o)
                                    (onRejectedCallbacks o)]> h) s).

(** ** The candidates of the resolution procedure *)

(** [x instanceof ZPromise], line 41. *)
Definition is_ZPromise (x : value) : bool :=
  match x with VZPromise _ => true | _ => false end.

(** The test of line 47. *)
Definition object_tag (x : value) : bool :=
  String.eqb (getType x) "[object Object]" || String.eqb (getType x) "[object Function]".

(** What a JavaScript program calls an object or a callable value. *)
Definition object_or_callable (x : value) : bool :=
  match x with
  | VNull => false
  | _ => String.eqb (typeof x) "object" || String.eqb (typeof x) "function"
  end.

(** Whether [x.then] is behind a getter. *)
Definition has_getter (x : value) : bool :=
  match x with VForeign _ _ (PGetter _) => true | _ => false end.

(** The value of [x.then] when it is not behind a getter. *)
Definition then_data (x : value) : value :=
  match x with VForeign _ _ (PData v) => v | _ => VUndefined end.

(** Lines 60-104: what is done with the value read from [x.then]. *)
Definition after_read (call : value → value → list value → M)
    (p : nat) (x resolve reject thenFunc : value) : M :=
  if String.eqb (getType thenFunc) "[object Function]"
  then fun s =>
    let c := length (cells s) in
    (try_catch
       (call thenFunc x [VCore (ResolvePromise c p resolve reject);
                         VCore (RejectPromise c reject)])
       (fun error =>
          get_called c (fun called =>
            if called then ret VUndefined
            else set_called c >> call reject VUndefined [error])) >>
     ret VUndefined)
      (set_cells (fun l => l ++ [false]) s)
  else call resolve VUndefined [x] >> ret VUndefined.

(** A value that the procedure hands to [resolve] as it is. *)
Definition plain (v : value) : Prop :=
  is_ZPromise v = false ∧
  (object_tag v = false ∨
   (has_getter v = false ∧ getType (then_data v) ≠ "[object Function]")).

(** The store after the read of [v.then], when there is one. *)
Definition read_store (v : value) (s : state) : state :=
  if object_tag v then set_trace (fun t => t ++ [EvGetThen v]) s else s.

(** ** Chains of nested ZPromises *)

(** The handler that line 46 gives to [x.then] for the target [b]. *)
Definition unwrap (b : nat) : value :=
  VCore (Unwrap b (VCore (BoundResolve b)) (VCore (BoundReject b))).







(** ** Stores, scripts and thenables of the examples *)

(** function (...) { body } *)
Definition fn (body : list cmd) : value := VForeign "Function" (Some body) PAbsent.

(** A handler with an observable effect. *)
Definition log_handler (k : nat) : value := fn [CLog k].

Definition cycle_error : value := TypeError "Chaining cycle detected for promise".

Definition settled_store : state :=
  mkState [mkZPromise fulfilled (VNum 1) [] []] [] [] ∅ [].

Definition pending_store : state := allocate initial.

Definition rejected_store : state :=
  mkState [mkZPromise rejected (VStr "E") [] []] [] [] ∅ [].

Definition called_store : state := mkState [] [true] [] ∅ [].


Definition once_registered : state :=
  (ZPromise_then (call_fn 1) 0 (log_handler 1) (log_handler 2) pending_store).2.

Definition twice_registered : state :=
  (ZPromise_then (call_fn 1) 0 (log_handler 3) (log_handler 4) once_registered).2.

(** A pending object gets one reaction, then is fulfilled:
      a = new ZPromise(res => { resA = res });  b = a.then(f, g);  resA(42) *)
Definition queue_script : list cmd :=
  [ CNew 1 (EConst (fn [CSet 5 (EArg 0)]));
    CThen 2 (EVar 1) (EConst (fn [CLog 1])) (EConst (fn [CLog 2]));
    CCall 9 (EVar 5) [EConst (VNum 42)] ].

(** The cycle reached directly (the example of lines 27-34):
      a = new ZPromise(res => res(1));  b = a.then(() => b) *)
Definition direct_cycle : list cmd :=
  [ CNew 1 (EConst (fn [CCall 9 (EArg 0) [EConst (VNum 1)]]));
    CThen 3 (EVar 1) (EConst (fn [CReturn (EVar 3)])) (EConst VUndefined) ].

(** The cycle reached through a nested ZPromise:
      a = new ZPromise(res => res(1));  c = new ZPromise(res => { resC = res });
      b = a.then(() => c);  resC(b) *)
Definition nested_cycle : list cmd :=
  [ CNew 1 (EConst (fn [CCall 9 (EArg 0) [EConst (VNum 1)]]));
    CNew 2 (EConst (fn [CSet 5 (EArg 0)]));
    CThen 3 (EVar 1) (EConst (fn [CReturn (EVar 2)])) (EConst VUndefined);
    CCall 9 (EVar 5) [EVar 3] ].

(** The cycle reached through the resolve continuation of a thenable:
      a = new ZPromise(res => res(1));  b = a.then(() => ({ then(res) { res(b) } })) *)
Definition thenable_cycle : list cmd :=
  [ CNew 1 (EConst (fn [CCall 9 (EArg 0) [EConst (VNum 1)]]));
    CThen 3 (EVar 1)
      (EConst (fn [CReturn (EConst (VForeign "Object" None
                                      (PData (fn [CCall 9 (EArg 0) [EVar 3]]))))]))
      (EConst VUndefined) ].

(** The same, the continuation being called from a timer:
      b = a.then(() => ({ then(res) { setTimeout(() => res(b)) } })) *)
Definition late_thenable_cycle : list cmd :=
  [ CNew 1 (EConst (fn [CCall 9 (EArg 0) [EConst (VNum 1)]]));
    CThen 3 (EVar 1)
      (EConst (fn [CReturn (EConst (VForeign "Object" None
                 (PData (fn [CSet 7 (EArg 0);
                             CSetTimeout (EConst (fn [CCall 9 (EVar 7) [EVar 3]]))]))))]))
      (EConst VUndefined) ].

(** The whole scenario as a script: [d] is pending, [c] is fulfilled with
    [d], the reaction of [a.then] returns [c]; when [d] is later fulfilled
    with 7, so is [b].
      a = new ZPromise(res => res(1));  d = new ZPromise(res => { resD = res });
      c = new ZPromise(res => res(d));  b = a.then(() => c);
      setTimeout(() => resD(7)) *)
Definition nested_script : list cmd :=
  [ CNew 1 (EConst (fn [CCall 9 (EArg 0) [EConst (VNum 1)]]));
    CNew 4 (EConst (fn [CSet 5 (EArg 0)]));
    CNew 2 (EConst (fn [CCall 9 (EArg 0) [EVar 4]]));
    CThen 3 (EVar 1) (EConst (fn [CReturn (EVar 2)])) (EConst VUndefined);
    CSetTimeout (EConst (fn [CCall 9 (EVar 5) [EConst (VNum 7)]])) ].

(** An array that carries a callable [then]:
      x = [];  x.then = (res) => res(5) *)
Definition array_thenable : value :=
  VForeign "Array" None (PData (fn [CCall 9 (EArg 0) [EConst (VNum 5)]])).

(** An object whose [then] is an async function:
      { then: async (res) => res(5) } *)
Definition async_thenable : value :=
  VForeign "Object" None
    (PData (VForeign "AsyncFunction" (Some [CCall 9 (EArg 0) [EConst (VNum 5)]]) PAbsent)).

(** A reaction that returns [x]:
      a = new ZPromise(res => res(1));  b = a.then(() => x) *)
Definition returning (x : value) : list cmd :=
  [ CNew 1 (EConst (fn [CCall 9 (EArg 0) [EConst (VNum 1)]]));
    CThen 3 (EVar 1) (EConst (fn [CReturn (EConst x)])) (EConst VUndefined) ].

(** { then(res, rej) { res(5) } } *)
Definition thenable_5 : value :=
  VForeign "Object" None (PData (fn [CCall 9 (EArg 0) [EConst (VNum 5)]])).

(** { then(res, rej) { res(5); res(6); rej(7); throw 8 } } *)
Definition noisy_thenable : value :=
  VForeign "Object" None
    (PData (fn [CCall 9 (EArg 0) [EConst (VNum 5)];
                CCall 9 (EArg 0) [EConst (VNum 6)];
                CCall 9 (EArg 1) [EConst (VNum 7)];
                CThrow (EConst (VNum 8))])).

(** The exception comes first, the continuation is called from a timer:
      { then(res, rej) { setTimeout(() => res(5)); throw 8 } } *)
Definition throwing_thenable : value :=
  VForeign "Object" None
    (PData (fn [CSet 7 (EArg 0);
                CSetTimeout (EConst (fn [CCall 9 (EVar 7) [EConst (VNum 5)]]));
                CThrow (EConst (VNum 8))])).




(** Resolving the pending object 0 with [x], then running the timers. *)
Definition adopt (x : value) : state :=
  run_loop 5 5
    (resolveNextPromise (call_fn 5) 0 x (VCore (BoundResolve 0)) (VCore (BoundReject 0))
       pending_store).2.

(** A store with a fulfilled object at 0 and the pending object of a
    reaction at 1. *)
Definition reaction_store : state :=
  mkState [mkZPromise fulfilled (VNum 1) [] []; fresh] [] [] ∅ [].

(** ** src/test/adapter.js *)

(** The executor of [deferred], lines 8-11.  The three properties of the
    object [result] are the variables [r] (promise), [r + 1] (resolve) and
    [r + 2] (reject) of the caller. *)
Definition adapter_executor (r : nat) : value :=
  fn [CSet (S r) (EArg 0); CSet (S (S r)) (EArg 1)].

(** [deferred], lines 4-13. *)
Definition deferred (r : nat) : list cmd :=
  [CNew r (EConst (adapter_executor r))].

(** The timer of a reaction registered by [then] on a receiver in state
    [st]: lines 197-220 when fulfilled, lines 224-239 when rejected. *)
Definition reaction_timer (st : promise_state) (this p : nat)
    (onFulfilled onRejected : value) : value :=
  match st with
  | fulfilled =>
      VCore (FulfilledTask this p onFulfilled (VCore (BoundResolve p)) (VCore (BoundReject p)))
  | _ =>
      VCore (RejectedTask this p onRejected (VCore (BoundResolve p)) (VCore (BoundReject p)))
  end.

(** Two reactions registered on the settled object of [settled_store]. *)
Definition settled_once : state :=
  (ZPromise_then (call_fn 1) 0 (log_handler 1) (log_handler 2) settled_store).2.

Definition settled_twice : state :=
  (ZPromise_then (call_fn 1) 0 (log_handler 3) (log_handler 4) settled_once).2.

(** The object of [once_registered] fulfilled, then given a second
    reaction. *)
Definition fulfilled_later : state :=
  (call_fn 2 (VCore (BoundResolve 0)) VUndefined [VNum 9] once_registered).2.

Definition registered_later : state :=
  (ZPromise_then (call_fn 1) 0 (log_handler 3) (log_handler 4) fulfilled_later).2.

(** ** Turns of the timer queue *)

(** A function written by the caller, as opposed to one of core.js. *)
Definition foreign_function (v : value) : Prop :=
  match v with VForeign _ (Some _) _ => True | _ => False end.

(** Turn [k] of the timer queue, counted from the store [s], begins by
    entering [f] with the arguments [args]. *)
Definition enters (fuel k : nat) (s : state) (f : value) (args : list value) : Prop :=
  (trace (run_loop k fuel s) ++ [EvInvoke f VUndefined args])
    `prefix_of` trace (run_loop (S k) fuel s).

(** * Proofs *)

Lemma call_fn_S n f this args :
  call_fn (S n) f this args = call_step (call_fn n) f this args.
Proof. reflexivity. Qed.

(** ** The invariant of the store *)

Lemma extended_refl q : extended q q.
Proof. exists []. by rewrite app_nil_r. Qed.

Lemma extended_trans q1 q2 q3 : extended q1 q2 → extended q2 q3 → extended q1 q3.
Proof.
  intros (e1 & -> & H1) (e2 & -> & H2). exists (e1 ++ e2).
  split; [by rewrite app_assoc | by apply Forall_app].
Qed.

Lemma extended_wf q q' : extended q q' → Forall is_queued q → Forall is_queued q'.
Proof. intros (e & -> & He) Hq. by apply Forall_app. Qed.

Lemma obj_evolves_refl o : obj_evolves o o.
Proof. repeat split; auto using extended_refl. Qed.

Lemma obj_evolves_trans o1 o2 o3 :
  obj_evolves o1 o2 → obj_evolves o2 o3 → obj_evolves o1 o3.
Proof.
  intros (Ha & Hb & Hc) (Ha' & Hb' & Hc'). repeat split.
  - intros Hs. specialize (Ha Hs). subst o2. auto.
  - eauto using extended_trans.
  - eauto using extended_trans.
Qed.

Lemma obj_evolves_wf o o' : obj_evolves o o' → wf_obj o → wf_obj o'.
Proof. intros (_ & Hb & Hc) [H1 H2]. split; eauto using extended_wf. Qed.

Lemma evolves_refl s : evolves s s.
Proof.
  split.
  - intros p o H. exists o. auto using obj_evolves_refl.
  - intros p o H1 H2. congruence.
  - intros c b H. exists b. auto.
  - done.
Qed.

Lemma evolves_trans s1 s2 s3 : evolves s1 s2 → evolves s2 s3 → evolves s1 s3.
Proof.
  intros [A1 A2 A3 A4] [B1 B2 B3 B4]. split.
  - intros p o H. destruct (A1 _ _ H) as (o2 & H2 & E2).
    destruct (B1 _ _ H2) as (o3 & H3 & E3). exists o3.
    eauto using obj_evolves_trans.
  - intros p o3 H3 H1. destruct (heap s2 !! p) as [o2|] eqn:H2.
    + destruct (B1 _ _ H2) as (o3' & H3' & E3). rewrite H3 in H3'.
      injection H3' as <-. eapply obj_evolves_wf; eauto.
    + eauto.
  - intros c b H. destruct (A3 _ _ H) as (b2 & H2 & E2).
    destruct (B3 _ _ H2) as (b3 & H3 & E3). exists b3. split; auto.
  - by etrans.
Qed.

Lemma grows_refl s : grows s s.
Proof. split; [apply evolves_refl | done]. Qed.

Lemma grows_trans s1 s2 s3 : grows s1 s2 → grows s2 s3 → grows s1 s3.
Proof.
  intros [A1 A2] [B1 B2]. split; [by eapply evolves_trans | by etrans].
Qed.

Lemma evolves_wf s s' : evolves s s' → wf s → wf s'.
Proof.
  intros [A1 A2 _ _] Hwf p o' H'. destruct (heap s !! p) as [o|] eqn:H.
  - destruct (A1 _ _ H) as (o2 & H2 & E2). rewrite H' in H2. injection H2 as <-.
    eapply obj_evolves_wf; eauto.
  - eauto.
Qed.

(** Steps of the store. *)

Lemma grows_set_trace s e : grows s (set_trace (fun t => t ++ [e]) s).
Proof.
  split; [split|]; simpl; try done.
  - intros p o H. exists o. auto using obj_evolves_refl.
  - intros p o H1 H2. congruence.
  - intros c b H. exists b. auto.
  - by apply prefix_app_r.
Qed.

Lemma evolves_same s s' :
  heap s' = heap s → cells s' = cells s → trace s' = trace s → evolves s s'.
Proof.
  intros Hh Hc Ht. split; rewrite ?Hh, ?Hc, ?Ht; try done.
  - intros p o H. exists o. auto using obj_evolves_refl.
  - intros p o H1 H2. congruence.
  - intros c b H. exists b. auto.
Qed.

Lemma grows_set_timers s f : grows s (set_timers (fun q => q ++ [f]) s).
Proof.
  split; [by apply evolves_same|]. simpl. by apply prefix_app_r.
Qed.

Lemma grows_set_vars s f : grows s (set_vars f s).
Proof. split; [by apply evolves_same | done]. Qed.

Lemma grows_alloc_cell s : grows s (set_cells (fun l => l ++ [false]) s).
Proof.
  split; [split|]; simpl; try done.
  - intros p o H. exists o. auto using obj_evolves_refl.
  - intros p o H1 H2. congruence.
  - intros c b H. exists b. split; [|done]. by apply lookup_app_l_Some.
Qed.

Lemma grows_set_called s c : grows s (set_cells (fun l => <[c := true]> l) s).
Proof.
  split; [split|]; simpl; try done.
  - intros p o H. exists o. auto using obj_evolves_refl.
  - intros p o H1 H2. congruence.
  - intros c' b H. destruct (decide (c = c')) as [<-|Hne].
    + exists true. split; [|done]. apply list_lookup_insert_eq.
      by eapply lookup_lt_Some.
    + exists b. split; [|done]. by rewrite list_lookup_insert_ne.
Qed.

Lemma grows_alloc s : grows s (set_heap (fun h => h ++ [mkZPromise pending VNull [] []]) s).
Proof.
  split; [split|]; simpl; try done.
  - intros p o H. exists o. split; [by apply lookup_app_l_Some | apply obj_evolves_refl].
  - intros p o' H' H. apply lookup_ge_None in H.
    rewrite lookup_app_r in H' by done.
    destruct (p - length (heap s)) as [|k]; simpl in H'; [|done].
    injection H' as <-. split; constructor.
  - intros c b H. exists b. auto.
Qed.

Lemma grows_put s this o o' :
  heap s !! this = Some o → obj_evolves o o' →
  grows s (set_heap (fun h => <[this := o']> h) s).
Proof.
  intros H E. split; [split|]; simpl; try done.
  - intros p o1 H1. destruct (decide (this = p)) as [<-|Hne].
    + exists o'. split; [|congruence].
      apply list_lookup_insert_eq. by eapply lookup_lt_Some.
    + exists o1. split; [by rewrite list_lookup_insert_ne | apply obj_evolves_refl].
  - intros p o1 H1 H2. destruct (decide (this = p)) as [<-|Hne]; [congruence|].
    rewrite list_lookup_insert_ne in H1 by done. congruence.
  - intros c b Hc. exists b. auto.
Qed.

(** Computations that keep to [grows]. *)

Lemma preserves_ret v : preserves (ret v).
Proof. intros s. apply grows_refl. Qed.

Lemma preserves_throw e : preserves (throw e).
Proof. intros s. apply grows_refl. Qed.

Lemma preserves_log e : preserves (log e).
Proof. intros s. apply grows_set_trace. Qed.

Lemma preserves_setTimeout f : preserves (setTimeout f).
Proof. intros s. apply grows_set_timers. Qed.

Lemma preserves_set_var x v : preserves (set_var x v).
Proof. intros s. apply grows_set_vars. Qed.

Lemma preserves_set_called c : preserves (set_called c).
Proof. intros s. apply grows_set_called. Qed.

Lemma grows_bind s m k :
  grows s (m s).2 → (∀ v, preserves (k v)) → grows s (bind m k s).2.
Proof.
  intros Hm Hk. unfold bind. destruct (m s) as [[v|e|] s1]; simpl in *; auto.
  eapply grows_trans; [exact Hm | apply Hk].
Qed.

Lemma preserves_bind m k :
  preserves m → (∀ v, preserves (k v)) → preserves (bind m k).
Proof. intros Hm Hk s. by apply grows_bind. Qed.

Lemma preserves_try_catch m h :
  preserves m → (∀ e, preserves (h e)) → preserves (try_catch m h).
Proof.
  intros Hm Hh s. unfold try_catch. specialize (Hm s).
  destruct (m s) as [[v|e|] s1]; simpl in *; auto.
  eapply grows_trans; [exact Hm | apply Hh].
Qed.

Lemma preserves_forEach l f : (∀ x, preserves (f x)) → preserves (forEach l f).
Proof.
  intros Hf. induction l as [|x l IH]; simpl.
  - apply preserves_ret.
  - apply preserves_bind; auto.
Qed.

Lemma preserves_get_called c k : (∀ b, preserves (k b)) → preserves (get_called c k).
Proof.
  intros Hk s. unfold get_called. destruct (cells s !! c); [apply Hk | apply grows_refl].
Qed.

Lemma preserves_get_this this k :
  (∀ o s, heap s !! this = Some o → grows s (k o s).2) → preserves (get_this this k).
Proof.
  intros Hk s. unfold get_this. destruct (heap s !! this) eqn:H; [by apply Hk | apply grows_refl].
Qed.

Lemma preserves_at (m : M) s : preserves m → grows s (m s).2.
Proof. auto. Qed.

Create HintDb pres.

#[local] Hint Resolve preserves_ret preserves_throw preserves_log preserves_setTimeout
  preserves_set_var preserves_set_called preserves_bind preserves_try_catch
  preserves_forEach preserves_get_called : pres.

Section CoreInvariant.
Variable call : value → value → list value → M.
Hypothesis call_preserves : ∀ f this args, preserves (call f this args).

#[local] Hint Resolve call_preserves : pres.

Lemma settle_preserves this st data (o : ZPromise) s (k : M) :
  heap s !! this = Some o → PromiseState o = pending → preserves k →
  grows s ((put_this this (mkZPromise st data (onFulfilledCallbacks o)
                             (onRejectedCallbacks o)) >> k) s).2.
Proof.
  intros H Hp Hk. apply grows_bind; [|auto]. simpl.
  eapply grows_put; eauto. repeat split; simpl; auto using extended_refl.
  congruence.
Qed.

Lemma ZPromise_resolve_preserves this data : preserves (ZPromise_resolve call this data).
Proof.
  apply preserves_get_this. intros o s H.
  destruct (PromiseState o) eqn:Hs; try apply grows_refl.
  apply settle_preserves; auto with pres.
Qed.

Lemma ZPromise_reject_preserves this reason : preserves (ZPromise_reject call this reason).
Proof.
  apply preserves_get_this. intros o s H.
  destruct (PromiseState o) eqn:Hs; try apply grows_refl.
  apply settle_preserves; auto with pres.
Qed.

#[local] Hint Resolve ZPromise_resolve_preserves ZPromise_reject_preserves : pres.

Lemma ZPromise_new_preserves executor : preserves (ZPromise_new call executor).
Proof.
  unfold ZPromise_new. destruct (negb _); [auto with pres|].
  intros s. eapply grows_trans; [apply grows_alloc|].
  apply preserves_at. auto with pres.
Qed.

Lemma ZPromise_then_preserves this onFulfilled onRejected :
  preserves (ZPromise_then call this onFulfilled onRejected).
Proof. intros s. unfold ZPromise_then. apply ZPromise_new_preserves. Qed.

Lemma get_then_preserves x : preserves (get_then call x).
Proof.
  unfold get_then. apply preserves_bind; [auto with pres|]. intros _.
  destruct x as [| | | | | | | |tag c [|v|body]]; auto with pres.
Qed.

#[local] Hint Resolve ZPromise_new_preserves ZPromise_then_preserves
  get_then_preserves : pres.

Lemma resolveNextPromise_preserves p x resolve reject :
  preserves (resolveNextPromise call p x resolve reject).
Proof.
  unfold resolveNextPromise. destruct (same_object p x); [auto with pres|].
  assert (Hgen : preserves
    (if String.eqb (getType x) "[object Object]"
        || String.eqb (getType x) "[object Function]"
     then
       let* thenFunc :=
         try_catch (get_then call x)
           (fun error => call reject VUndefined [error] >> ret VUndefined) in
       if String.eqb (getType thenFunc) "[object Function]"
       then fun s =>
         let c := length (cells s) in
         (try_catch
            (call thenFunc x [VCore (ResolvePromise c p resolve reject);
                              VCore (RejectPromise c reject)])
            (fun error =>
               get_called c (fun called =>
                 if called then ret VUndefined
                 else set_called c >> call reject VUndefined [error])) >>
          ret VUndefined)
           (set_cells (fun l => l ++ [false]) s)
       else call resolve VUndefined [x] >> ret VUndefined
     else call resolve VUndefined [x] >> ret VUndefined)).
  { destruct (_ || _); [|auto with pres].
    apply preserves_bind; [auto 6 with pres|]. intros thenFunc.
    destruct (String.eqb _ _); [|auto with pres].
    intros s. eapply grows_trans; [apply grows_alloc_cell|].
    apply preserves_at. apply preserves_bind; [|auto with pres].
    apply preserves_try_catch; [auto with pres|]. intros e.
    apply preserves_get_called. intros []; auto with pres. }
  destruct x; auto with pres.
Qed.

#[local] Hint Resolve resolveNextPromise_preserves : pres.

Lemma push_preserves this (f : ZPromise → ZPromise) (k : M) o s :
  heap s !! this = Some o → obj_evolves o (f o) →
  (∀ s1, heap s1 !! this = Some (f o) → grows s1 (k s1).2) →
  grows s ((get_this this (fun o1 => put_this this (f o1)) >> k) s).2.
Proof.
  intros H Hf Hk. unfold bind, get_this, put_this. rewrite H.
  eapply grows_trans; [by eapply grows_put|]. apply Hk. simpl.
  apply list_lookup_insert_eq. by eapply lookup_lt_Some.
Qed.

Lemma call_core_preserves f args : preserves (call_core call f args).
Proof.
  destruct f; simpl; auto with pres.
  - apply preserves_get_called. intros []; auto with pres.
  - apply preserves_get_called. intros []; auto 6 with pres.
  - apply preserves_bind; [|intros _; apply preserves_bind; [|intros _]].
    + apply preserves_get_this. intros o s H.
      destruct (decide _); apply preserves_at; auto with pres.
    + apply preserves_get_this. intros o s H.
      destruct (decide _); apply preserves_at; auto with pres.
    + apply preserves_get_this. intros o s H. destruct (decide _).
      * eapply push_preserves; [done| |].
        { split; [done | split; simpl; [|apply extended_refl]].
          eexists. split; [done|]. by repeat constructor. }
        intros s1 H1. unfold get_this, put_this. rewrite H1. simpl.
        eapply grows_put; [done|].
        split; [done | split; simpl; [apply extended_refl|]].
        eexists. split; [done|]. by repeat constructor.
      * apply grows_refl.
  - apply preserves_try_catch; [|auto with pres].
    destruct (String.eqb _ _); apply preserves_get_this; intros o s H;
      apply preserves_at; auto with pres.
  - apply preserves_try_catch; [|auto with pres].
    destruct (String.eqb _ _); apply preserves_get_this; intros o s H;
      apply preserves_at; auto with pres.
Qed.

Lemma run_cmds_preserves cs this args : preserves (run_cmds call cs this args).
Proof.
  induction cs as [|c cs IH]; simpl; [auto with pres|].
  destruct c; intros s; try solve [apply preserves_at; auto 6 with pres].
  - destruct (eval recv this args s); try apply grows_refl.
    apply preserves_at; auto 6 with pres.
  - apply grows_refl.
  - apply grows_refl.
Qed.

Lemma call_step_preserves f this args : preserves (call_step call f this args).
Proof.
  destruct f as [| | | | | | |g|tag [body|] thenP]; simpl; auto with pres.
  - apply call_core_preserves.
  - apply preserves_bind; [auto with pres|]. intros _. apply run_cmds_preserves.
Qed.
End CoreInvariant.

Lemma call_fn_preserves fuel f this args : preserves (call_fn fuel f this args).
Proof.
  revert f this args. induction fuel as [|n IH]; intros f this args; simpl.
  - intros s. apply grows_refl.
  - by apply call_step_preserves.
Qed.

Lemma run_cmds_fn_preserves fuel cs this args :
  preserves (run_cmds (call_fn fuel) cs this args).
Proof. apply run_cmds_preserves. intros. apply call_fn_preserves. Qed.

Lemma resolveNextPromise_fn_preserves fuel p x resolve reject :
  preserves (resolveNextPromise (call_fn fuel) p x resolve reject).
Proof. apply resolveNextPromise_preserves. intros. apply call_fn_preserves. Qed.

(** A turn takes the oldest timer and may add timers at the end. *)
Lemma turn_spec fuel s s' :
  turn fuel s = Some s' →
  ∃ t rest, timers s = t :: rest ∧ evolves s s' ∧ rest `prefix_of` timers s'.
Proof.
  unfold turn. destruct (timers s) as [|t rest] eqn:Ht; [done|].
  pose proof (call_fn_preserves fuel t VUndefined [] (set_timers (fun _ => rest) s)) as [He Hp].
  destruct (call_fn fuel t VUndefined [] _) as [o s1]. simpl in *.
  intros [= <-]. exists t, rest. split; [done|].
  assert (E0 : evolves s (set_timers (fun _ => rest) s)) by by apply evolves_same.
  destruct o; (split; [eapply evolves_trans; [exact E0|] | ]); try done.
  eapply evolves_trans; [exact He|]. apply grows_set_trace.
Qed.

Lemma turn_evolves fuel s s' : turn fuel s = Some s' → evolves s s'.
Proof. intros H. apply turn_spec in H as (t & rest & _ & He & _). exact He. Qed.

Lemma run_loop_evolves turns fuel s : evolves s (run_loop turns fuel s).
Proof.
  revert s. induction turns as [|n IH]; intros s; simpl; [apply evolves_refl|].
  destruct (turn fuel s) as [s'|] eqn:Ht; [|apply evolves_refl].
  eapply evolves_trans; [by eapply turn_evolves | apply IH].
Qed.

(** Every store that a program reaches is well formed: the hypothesis
    [wf_obj] of the statements below holds of all its objects. *)
Lemma run_main_wf turns fuel main : wf (run_main turns fuel main).
Proof.
  unfold run_main. eapply evolves_wf; [apply run_loop_evolves|].
  eapply evolves_wf; [apply run_cmds_fn_preserves|]. intros p o H. done.
Qed.

Lemma evolves_settled s s' p o :
  evolves s s' → heap s !! p = Some o → PromiseState o ≠ pending → heap s' !! p = Some o.
Proof.
  intros He H Hs. destruct (ev_old _ _ He _ _ H) as (o' & H' & Hf & _).
  by rewrite (Hf Hs) in H'.
Qed.

Lemma evolves_called s s' c :
  evolves s s' → cells s !! c = Some true → cells s' !! c = Some true.
Proof.
  intros He H. destruct (ev_cells _ _ He _ _ H) as (b' & H' & Hb).
  by rewrite (Hb eq_refl) in H'.
Qed.

(** [resolve] and [reject] on a settled object do nothing. *)
Lemma resolve_settled call this data s o :
  heap s !! this = Some o → PromiseState o ≠ pending →
  ZPromise_resolve call this data s = (Return VUndefined, s).
Proof.
  intros H Hs. unfold ZPromise_resolve, get_this. rewrite H.
  by destruct (PromiseState o).
Qed.

Lemma reject_settled call this reason s o :
  heap s !! this = Some o → PromiseState o ≠ pending →
  ZPromise_reject call this reason s = (Return VUndefined, s).
Proof.
  intros H Hs. unfold ZPromise_reject, get_this. rewrite H.
  by destruct (PromiseState o).
Qed.

Lemma ZPromise_new_allocate call executor s :
  typeof executor = "function" →
  ZPromise_new call executor s =
  (try_catch
     (call executor VUndefined [VCore (BoundResolve (length (heap s)));
                                VCore (BoundReject (length (heap s)))])
     (fun error => ZPromise_reject call (length (heap s)) error) >>
   ret (VZPromise (length (heap s)))) (allocate s).
Proof. intros H. unfold ZPromise_new. by rewrite H. Qed.

(** Whatever runs after a settlement leaves the settled object as it is. *)
Lemma settled_through (m : M) s p o :
  preserves m → heap s !! p = Some o → PromiseState o ≠ pending →
  heap (m s).2 !! p = Some o.
Proof.
  intros Hm H Hs. eapply evolves_settled; [|exact H|exact Hs].
  exact (proj1 (preserves_at m s Hm)).
Qed.

(** The constructor in terms of what its executor does. *)
Lemma ZPromise_new_run fuel executor s :
  typeof executor = "function" →
  let this := length (heap s) in
  ZPromise_new (call_fn fuel) executor s =
  match call_fn fuel executor VUndefined
          [VCore (BoundResolve this); VCore (BoundReject this)]
          (set_heap (fun h => h ++ [mkZPromise pending VNull [] []]) s) with
  | (Return _, s1) => (Return (VZPromise this), s1)
  | (Throw e, s1) => (ZPromise_reject (call_fn fuel) this e >> ret (VZPromise this)) s1
  | (OutOfFuel, s1) => (OutOfFuel, s1)
  end.
Proof.
  intros H this. rewrite ZPromise_new_allocate by done. unfold bind, try_catch, allocate, fresh.
  fold this. by destruct (call_fn fuel executor _ _ _) as [[] ?].
Qed.

(** An object that the executor has settled is what the constructor hands
    out, also when the executor throws afterwards. *)
Lemma ZPromise_new_settled fuel executor s o :
  typeof executor = "function" →
  let this := length (heap s) in
  heap (call_fn fuel executor VUndefined
          [VCore (BoundResolve this); VCore (BoundReject this)]
          (set_heap (fun h => h ++ [mkZPromise pending VNull [] []]) s)).2 !! this = Some o →
  PromiseState o ≠ pending →
  heap (ZPromise_new (call_fn fuel) executor s).2 !! this = Some o.
Proof.
  intros H this Ho Hs. rewrite ZPromise_new_run by done. fold this.
  destruct (call_fn fuel executor _ _ _) as [[v|e|] s1]; simpl in *; try done.
  unfold bind. rewrite (reject_settled _ _ _ _ _ Ho Hs). done.
Qed.

(** An executor that begins with a call of its first (second) argument. *)
Lemma executor_settles_first n tag thenP x (i : nat) v rest s :
  let this := length (heap s) in
  let args := [VCore (BoundResolve this); VCore (BoundReject this)] in
  let executor := VForeign tag (Some (CCall x (EArg i) [EConst v] :: rest)) thenP in
  let born := set_heap (fun h => h ++ [mkZPromise pending VNull [] []]) s in
  (i = 0 → heap (call_fn (S (S n)) executor VUndefined args born).2 !! this
           = Some (mkZPromise fulfilled v [] [])) ∧
  (i = 1 → heap (call_fn (S (S n)) executor VUndefined args born).2 !! this
           = Some (mkZPromise rejected v [] [])).
Proof.
  intros this args executor born.
  assert (Hb : ∀ e, heap (set_trace (fun t => t ++ [e]) born) !! this
                    = Some (mkZPromise pending VNull [] [])).
  { intros e. simpl. unfold this. by rewrite lookup_app_r, Nat.sub_diag. }
  assert (Hlen : ∀ e, this < length (heap (set_trace (fun t => t ++ [e]) born))).
  { intros e. simpl. rewrite length_app. simpl. unfold this. lia. }
  split; intros ->; rewrite call_fn_S; unfold executor, call_step, bind at 1, log;
    simpl run_cmds; unfold bind at 1; simpl eval; unfold arg; simpl (default _ _);
    rewrite call_fn_S; unfold call_step, call_core, arg; simpl (default _ _).
  - unfold ZPromise_resolve, get_this. rewrite Hb. simpl.
    apply settled_through.
    + apply preserves_bind; [apply preserves_set_var|]. intros _.
      apply run_cmds_fn_preserves.
    + simpl. apply list_lookup_insert_eq. apply (Hlen (EvInvoke executor VUndefined args)).
    + done.
  - unfold ZPromise_reject, get_this. rewrite Hb. simpl.
    apply settled_through.
    + apply preserves_bind; [apply preserves_set_var|]. intros _.
      apply run_cmds_fn_preserves.
    + simpl. apply list_lookup_insert_eq. apply (Hlen (EvInvoke executor VUndefined args)).
    + done.
Qed.

(** C1: the constructor puts the new object, pending, at an address that
    held none, and calls the executor on that store: what it hands out is
    what the executor left, rejected with what the executor threw if it was
    still pending.  So an executor that does nothing leaves the object
    pending, one that begins with [resolve(v)] leaves it fulfilled with [v]
    and one that begins with [reject(v)] leaves it rejected with [v],
    whatever either does next.  An object that has left 'pending' keeps its
    state and its result through every call, every script and every turn of
    the timer queue, and calling its [resolve] or [reject] again, with any
    value, changes nothing in the store. *)
Theorem C1_settles_once (fuel turns : nat) (s : state) (p : nat) (o : ZPromise) :
  heap s !! p = Some o → PromiseState o ≠ pending →
  (∀ executor s0, typeof executor = "function" →
     let this := length (heap s0) in
     let born := set_heap (fun h => h ++ [mkZPromise pending VNull [] []]) s0 in
     heap s0 !! this = None ∧
     heap born !! this = Some (mkZPromise pending VNull [] []) ∧
     ZPromise_new (call_fn fuel) executor s0 =
       match call_fn fuel executor VUndefined
               [VCore (BoundResolve this); VCore (BoundReject this)] born with
       | (Return _, s1) => (Return (VZPromise this), s1)
       | (Throw e, s1) =>
           (ZPromise_reject (call_fn fuel) this e >> ret (VZPromise this)) s1
       | (OutOfFuel, s1) => (OutOfFuel, s1)
       end ∧
     evolves born (ZPromise_new (call_fn fuel) executor s0).2) ∧
  (∀ n tag thenP x v rest s0,
     let this := length (heap s0) in
     let new body :=
       ZPromise_new (call_fn (S (S n))) (VForeign tag (Some body) thenP) s0 in
     (new []).1 = Return (VZPromise this) ∧
     heap (new []).2 !! this = Some (mkZPromise pending VNull [] []) ∧
     heap (new (CCall x (EArg 0) [EConst v] :: rest)).2 !! this
       = Some (mkZPromise fulfilled v [] []) ∧
     heap (new (CCall x (EArg 1) [EConst v] :: rest)).2 !! this
       = Some (mkZPromise rejected v [] [])) ∧
  (∀ f this args, heap (call_fn fuel f this args s).2 !! p = Some o) ∧
  (∀ cs this args, heap (run_cmds (call_fn fuel) cs this args s).2 !! p = Some o) ∧
  heap (run_loop turns fuel s) !! p = Some o ∧
  (∀ args, call_fn (S fuel) (VCore (BoundResolve p)) VUndefined args s
           = (Return VUndefined, s)) ∧
  (∀ args, call_fn (S fuel) (VCore (BoundReject p)) VUndefined args s
           = (Return VUndefined, s)).
Proof.
  intros H Hs. split_and!.
  - intros executor s0 Hex this born. split_and!.
    + apply lookup_ge_None. unfold this. lia.
    + unfold born, this. simpl. by rewrite lookup_app_r, Nat.sub_diag.
    + by apply ZPromise_new_run.
    + rewrite ZPromise_new_allocate by done.
      refine (proj1 (preserves_at _ _ _)).
      apply preserves_bind; [|intros; apply preserves_ret].
      apply preserves_try_catch; [apply call_fn_preserves|].
      intros e. apply ZPromise_reject_preserves. intros. apply call_fn_preserves.
  - intros n tag thenP x v rest s0 this new. split_and!.
    + unfold new. by rewrite ZPromise_new_run.
    + unfold new. rewrite ZPromise_new_run by done. simpl.
      unfold this. by rewrite lookup_app_r, Nat.sub_diag.
    + apply ZPromise_new_settled; [done| |done].
      by apply (executor_settles_first n tag thenP x 0 v rest s0).
    + apply ZPromise_new_settled; [done| |done].
      by apply (executor_settles_first n tag thenP x 1 v rest s0).
  - intros f this args. eapply evolves_settled; eauto. apply call_fn_preserves.
  - intros cs this args. eapply evolves_settled; eauto. apply run_cmds_fn_preserves.
  - eapply evolves_settled; eauto. apply run_loop_evolves.
  - intros args. simpl. by eapply resolve_settled.
  - intros args. simpl. by eapply reject_settled.
Qed.

Lemma C1_settles_once_witness :
  heap (run_loop 3 5 settled_store) !! 0 = Some (mkZPromise fulfilled (VNum 1) [] []).
Proof.
  refine (proj1 (proj2 (proj2 (proj2 (proj2
    (C1_settles_once 5 3 settled_store 0 (mkZPromise fulfilled (VNum 1) [] []) _ _)))))).
  - reflexivity.
  - simpl. discriminate.
Defined.

(** ** [then] in closed form *)

Lemma ZPromise_then_spec n this onFulfilled onRejected s o :
  heap s !! this = Some o →
  ZPromise_then (call_fn (S n)) this onFulfilled onRejected s =
  (Return (VZPromise (length (heap s))), then_store this onFulfilled onRejected o s).
Proof.
  intros H. unfold ZPromise_then. rewrite ZPromise_new_allocate by done.
  assert (Ha : heap (allocate s) !! this = Some o)
    by (simpl; by apply lookup_app_l_Some).
  unfold then_store, bind, try_catch. rewrite call_fn_S. unfold call_step, call_core, bind, get_this.
  rewrite Ha. destruct o as [st r qf qr]. simpl in *.
  assert (Hlt : this < length (heap s ++ [mkZPromise pending VNull [] []])).
  { rewrite length_app. apply lookup_lt_Some in H. lia. }
  destruct st; simpl; repeat (rewrite Ha; simpl); try done.
  rewrite list_lookup_insert_eq by done. simpl.
  unfold ret, set_heap, allocate. simpl. by rewrite list_insert_insert_eq.
Qed.

(** ** Settlement in closed form *)

Lemma set_timers_nil s : set_timers (fun q => q ++ []) s = s.
Proof. destruct s. unfold set_timers. simpl. by rewrite app_nil_r. Qed.

(** Draining a queue of [then]: every entry is called once, in order, and
    schedules its timer. *)
Lemma forEach_queued n q s :
  Forall is_queued q →
  forEach q (fun callback => call_fn (S n) callback VUndefined []) s =
  (Return VUndefined, set_timers (fun t => t ++ map scheduled q) s).
Proof.
  intros Hq. revert s. induction Hq as [|x q Hx Hq IH]; intros s; simpl.
  - by rewrite set_timers_nil.
  - unfold bind.
    assert (Hc : call_fn (S n) x VUndefined [] s =
                 (Return VUndefined, set_timers (fun t => t ++ [scheduled x]) s)).
    { rewrite call_fn_S. destruct x as [| | | | | | |[]|]; try done. }
    rewrite Hc, IH. unfold set_timers. simpl. by rewrite <- app_assoc.
Qed.

Lemma resolve_pending n this data s o :
  heap s !! this = Some o → PromiseState o = pending →
  Forall is_queued (onFulfilledCallbacks o) →
  ZPromise_resolve (call_fn (S n)) this data s =
  (Return VUndefined, settle_store this fulfilled data o (onFulfilledCallbacks o) s).
Proof.
  intros H Hp Hq. unfold ZPromise_resolve, get_this. rewrite H, Hp.
  unfold bind, put_this. by rewrite forEach_queued.
Qed.

Lemma reject_pending n this reason s o :
  heap s !! this = Some o → PromiseState o = pending →
  Forall is_queued (onRejectedCallbacks o) →
  ZPromise_reject (call_fn (S n)) this reason s =
  (Return VUndefined, settle_store this rejected reason o (onRejectedCallbacks o) s).
Proof.
  intros H Hp Hq. unfold ZPromise_reject, get_this. rewrite H, Hp.
  unfold bind, put_this. by rewrite forEach_queued.
Qed.

(** Entering a foreign function leaves its event in the trace for good. *)
Lemma invoke_logged n tag body thenP this args s :
  let f := VForeign tag (Some body) thenP in
  (trace s ++ [EvInvoke f this args]) `prefix_of` trace (call_fn (S n) f this args s).2.
Proof.
  simpl. rewrite call_fn_S. unfold call_step, bind, log.
  pose proof (run_cmds_fn_preserves n body this args
    (set_trace (fun t => t ++ [EvInvoke (VForeign tag (Some body) thenP) this args]) s))
    as [[_ _ _ Ht] _].
  destruct (run_cmds _ _ _ _ _) as [[] s1]; exact Ht.
Qed.

Lemma try_bind_trace (m : M) k h s tr :
  tr `prefix_of` trace (m s).2 → (∀ v, preserves (k v)) → (∀ e, preserves (h e)) →
  tr `prefix_of` trace (try_catch (bind m k) h s).2.
Proof.
  intros Hm Hk Hh. unfold try_catch, bind.
  destruct (m s) as [[v|e|] s1]; simpl in *.
  - pose proof (preserves_try_catch _ _ (Hk v) Hh s1) as [[_ _ _ Ht] _].
    unfold try_catch in Ht. etrans; [exact Hm | exact Ht].
  - destruct (Hh e s1) as [[_ _ _ Ht] _]. etrans; [exact Hm | exact Ht].
  - exact Hm.
Qed.

(** When a reaction task runs, the handler is entered with the result. *)
Lemma FulfilledTask_invokes n this p tag body thenP resolve reject s o :
  let onFulfilled := VForeign tag (Some body) thenP in
  heap s !! this = Some o →
  (trace s ++ [EvInvoke onFulfilled VUndefined [PromiseResult o]]) `prefix_of`
  trace (call_fn (S (S n)) (VCore (FulfilledTask this p onFulfilled resolve reject))
           VUndefined [] s).2.
Proof.
  intros onFulfilled H. rewrite call_fn_S. unfold call_step, call_core.
  change (typeof onFulfilled =? "function")%string with true. cbv iota.
  unfold get_this at 1. 
  match goal with |- _ `prefix_of` trace (try_catch ?m ?h s).2 =>
    replace (try_catch m h s) with
      (try_catch (bind (call_fn (S n) onFulfilled VUndefined [PromiseResult o])
                   (fun resultX => resolveNextPromise (call_fn (S n)) p resultX resolve reject))
         h s)
      by (unfold try_catch, bind; by rewrite H)
  end.
  apply try_bind_trace.
  - apply invoke_logged.
  - intros v. apply resolveNextPromise_fn_preserves.
  - intros e. apply preserves_bind; [apply call_fn_preserves | intros; apply preserves_ret].
Qed.

Lemma RejectedTask_invokes n this p tag body thenP resolve reject s o :
  let onRejected := VForeign tag (Some body) thenP in
  heap s !! this = Some o →
  (trace s ++ [EvInvoke onRejected VUndefined [PromiseResult o]]) `prefix_of`
  trace (call_fn (S (S n)) (VCore (RejectedTask this p onRejected resolve reject))
           VUndefined [] s).2.
Proof.
  intros onRejected H. rewrite call_fn_S. unfold call_step, call_core.
  change (typeof onRejected =? "function")%string with true. cbv iota.
  unfold get_this at 1. 
  match goal with |- _ `prefix_of` trace (try_catch ?m ?h s).2 =>
    replace (try_catch m h s) with
      (try_catch (bind (call_fn (S n) onRejected VUndefined [PromiseResult o])
                   (fun reasonX => resolveNextPromise (call_fn (S n)) p reasonX resolve reject))
         h s)
      by (unfold try_catch, bind; by rewrite H)
  end.
  apply try_bind_trace.
  - apply invoke_logged.
  - intros v. apply resolveNextPromise_fn_preserves.
  - intros e. apply preserves_bind; [apply call_fn_preserves | intros; apply preserves_ret].
Qed.

(** A turn whose oldest timer is [t] runs [t]. *)
Lemma turn_runs fuel s t rest tr :
  timers s = t :: rest →
  tr `prefix_of` trace (call_fn fuel t VUndefined [] (set_timers (fun _ => rest) s)).2 →
  ∃ s', turn fuel s = Some s' ∧ tr `prefix_of` trace s'.
Proof.
  intros Ht Htr. unfold turn. rewrite Ht.
  destruct (call_fn fuel t VUndefined [] _) as [o s1]. simpl in Htr.
  eexists. split; [done|]. destruct o; try done. simpl.
  by apply prefix_app_r.
Qed.

(** C6: [then] returns the new object having entered no foreign function:
    the trace, where every entry into a foreign function is recorded, is the
    one it started with.  When the receiver is already settled the reaction
    is a timer at the end of the queue; when it is pending no timer is
    added.  With the receiver settled and no older timer waiting, the next
    turn of the timer queue is the one that enters the handler. *)
Theorem C6_then_is_asynchronous (n : nat) (this : nat) (onFulfilled onRejected : value)
    (s : state) (o : ZPromise) :
  heap s !! this = Some o →
  let p := length (heap s) in
  let resolve := VCore (BoundResolve p) in
  let reject := VCore (BoundReject p) in
  ∃ s', ZPromise_then (call_fn (S n)) this onFulfilled onRejected s
          = (Return (VZPromise p), s') ∧
    trace s' = trace s ∧
    timers s' = timers s ++
      match PromiseState o with
      | fulfilled => [VCore (FulfilledTask this p onFulfilled resolve reject)]
      | rejected => [VCore (RejectedTask this p onRejected resolve reject)]
      | pending => []
      end ∧
    (∀ tag body thenP, onFulfilled = VForeign tag (Some body) thenP →
       PromiseState o = fulfilled → timers s = [] →
       ∃ s'', turn (S (S n)) s' = Some s'' ∧
         (trace s ++ [EvInvoke onFulfilled VUndefined [PromiseResult o]])
           `prefix_of` trace s'') ∧
    (∀ tag body thenP, onRejected = VForeign tag (Some body) thenP →
       PromiseState o = rejected → timers s = [] →
       ∃ s'', turn (S (S n)) s' = Some s'' ∧
         (trace s ++ [EvInvoke onRejected VUndefined [PromiseResult o]])
           `prefix_of` trace s'').
Proof.
  intros H p resolve reject. eexists. split; [by apply ZPromise_then_spec|].
  assert (Ha : heap (allocate s) !! this = Some o)
    by (simpl; by apply lookup_app_l_Some).
  unfold then_store. fold p resolve reject. split_and!.
  - by destruct (PromiseState o).
  - destruct (PromiseState o); simpl; by rewrite ?app_nil_r.
  - intros tag body thenP -> Hs Ht. rewrite Hs.
    eapply turn_runs; [simpl; by rewrite Ht|].
    match goal with |- _ `prefix_of` trace (call_fn _ _ _ _ ?X).2 =>
      apply (FulfilledTask_invokes n this p tag body thenP resolve reject X o) end.
    exact Ha.
  - intros tag body thenP -> Hs Ht. rewrite Hs.
    eapply turn_runs; [simpl; by rewrite Ht|].
    match goal with |- _ `prefix_of` trace (call_fn _ _ _ _ ?X).2 =>
      apply (RejectedTask_invokes n this p tag body thenP resolve reject X o) end.
    exact Ha.
Qed.

Lemma C6_then_is_asynchronous_witness :
  ∃ s', ZPromise_then (call_fn 1) 0 (VForeign "Function" (Some [CLog 7]) PAbsent)
          VUndefined settled_store = (Return (VZPromise 1), s') ∧
        trace s' = [].
Proof.
  destruct (C6_then_is_asynchronous 0 0 (VForeign "Function" (Some [CLog 7]) PAbsent)
              VUndefined settled_store (mkZPromise fulfilled (VNum 1) [] []) eq_refl)
    as (s' & H1 & H2 & _).
  exists s'. split; [exact H1 | exact H2].
Defined.

(** ** The reaction queues *)

Lemma then_store_pending this onFulfilled onRejected o s :
  heap s !! this = Some o → PromiseState o = pending →
  heap (then_store this onFulfilled onRejected o s) !! this =
  Some (mkZPromise pending (PromiseResult o)
          (onFulfilledCallbacks o ++
             [VCore (QueuedFulfilled this (length (heap s)) onFulfilled
                       (VCore (BoundResolve (length (heap s))))
                       (VCore (BoundReject (length (heap s)))))])
          (onRejectedCallbacks o ++
             [VCore (QueuedRejected this (length (heap s)) onRejected
                       (VCore (BoundResolve (length (heap s))))
                       (VCore (BoundReject (length (heap s)))))])).
Proof.
  intros H Hp. unfold then_store. rewrite Hp. simpl.
  apply list_lookup_insert_eq. rewrite length_app. apply lookup_lt_Some in H. lia.
Qed.

Lemma settle_store_this this st v o q s :
  heap s !! this = Some o →
  heap (settle_store this st v o q s) !! this =
  Some (mkZPromise st v (onFulfilledCallbacks o) (onRejectedCallbacks o)).
Proof.
  intros H. simpl. apply list_lookup_insert_eq. by eapply lookup_lt_Some.
Qed.

(** C4, as stated, fails: after settlement, and after every timer has run,
    the fulfilled object still holds the entry in each of its two queues. *)
Lemma C4_queues_not_emptied :
  let s := run_main 5 5 queue_script in
  timers s = [] ∧
  ∃ o, heap s !! 0 = Some o ∧ PromiseState o = fulfilled ∧
       length (onFulfilledCallbacks o) = 1 ∧ length (onRejectedCallbacks o) = 1.
Proof. vm_compute. split; [done|]. eexists. by split_and!. Qed.

(** C4, amended: [then] appends one entry to each queue exactly when the
    receiver is pending; settling a pending object calls every entry of the
    matching queue once, in registration order (each schedules its timer),
    and leaves both arrays as they were; once the object is settled its
    queues are never appended to and never called again: the whole object is
    frozen through every call and every turn, and [resolve] and [reject]
    change nothing. *)
Theorem C4_queues_drained_once (n turns : nat) (s : state) (this : nat) (o : ZPromise) :
  heap s !! this = Some o → wf_obj o →
  (PromiseState o = pending →
     (∀ onFulfilled onRejected,
        ∃ s' qf qr, ZPromise_then (call_fn (S n)) this onFulfilled onRejected s
                      = (Return (VZPromise (length (heap s))), s') ∧
          heap s' !! this = Some (mkZPromise pending (PromiseResult o)
                                    (onFulfilledCallbacks o ++ [qf])
                                    (onRejectedCallbacks o ++ [qr])) ∧
          is_queued qf ∧ is_queued qr ∧ timers s' = timers s) ∧
     (∀ data,
        ∃ s', call_fn (S (S n)) (VCore (BoundResolve this)) VUndefined [data] s
                = (Return VUndefined, s') ∧
          heap s' !! this = Some (mkZPromise fulfilled data (onFulfilledCallbacks o)
                                    (onRejectedCallbacks o)) ∧
          timers s' = timers s ++ map scheduled (onFulfilledCallbacks o)) ∧
     (∀ reason,
        ∃ s', call_fn (S (S n)) (VCore (BoundReject this)) VUndefined [reason] s
                = (Return VUndefined, s') ∧
          heap s' !! this = Some (mkZPromise rejected reason (onFulfilledCallbacks o)
                                    (onRejectedCallbacks o)) ∧
          timers s' = timers s ++ map scheduled (onRejectedCallbacks o))) ∧
  (PromiseState o ≠ pending →
     (∀ f this' args, heap (call_fn n f this' args s).2 !! this = Some o) ∧
     heap (run_loop turns n s) !! this = Some o ∧
     (∀ onFulfilled onRejected,
        heap (ZPromise_then (call_fn n) this onFulfilled onRejected s).2 !! this = Some o) ∧
     (∀ args, call_fn (S n) (VCore (BoundResolve this)) VUndefined args s
              = (Return VUndefined, s)) ∧
     (∀ args, call_fn (S n) (VCore (BoundReject this)) VUndefined args s
              = (Return VUndefined, s))).
Proof.
  intros H [Hqf Hqr]. split; intros Hs.
  - split_and!.
    + intros onFulfilled onRejected. eexists _, _, _.
      split; [by apply ZPromise_then_spec|]. split_and!.
      * by apply then_store_pending.
      * done.
      * done.
      * unfold then_store. by rewrite Hs.
    + intros data. eexists. rewrite call_fn_S. simpl.
      split; [by apply resolve_pending|]. split; [by apply settle_store_this | done].
    + intros reason. eexists. rewrite call_fn_S. simpl.
      split; [by apply reject_pending|]. split; [by apply settle_store_this | done].
  - split_and!.
    + intros f this' args. eapply evolves_settled; eauto. apply call_fn_preserves.
    + eapply evolves_settled; eauto. apply run_loop_evolves.
    + intros onFulfilled onRejected. eapply evolves_settled; eauto.
      apply ZPromise_then_preserves. intros. apply call_fn_preserves.
    + intros args. rewrite call_fn_S. simpl. by eapply resolve_settled.
    + intros args. rewrite call_fn_S. simpl. by eapply reject_settled.
Qed.

Lemma C4_queues_drained_once_witness :
  call_fn 1 (VCore (BoundResolve 0)) VUndefined [VNum 2] settled_store
  = (Return VUndefined, settled_store).
Proof.
  refine (proj1 (proj2 (proj2 (proj2 (proj2
    (C4_queues_drained_once 0 0 settled_store 0 (mkZPromise fulfilled (VNum 1) [] [])
       eq_refl _) _)))) _).
  - split; constructor.
  - simpl. discriminate.
Defined.

(** ** Order of the reactions *)

(** The timer queue is first in, first out: after as many turns as there are
    older timers, the queue starts with what was behind them. *)
Lemma run_loop_fifo fuel pre rest s :
  timers s = pre ++ rest →
  ∃ new, timers (run_loop (length pre) fuel s) = rest ++ new.
Proof.
  revert rest s. induction pre as [|t pre IH]; intros rest s Ht; simpl.
  - exists []. by rewrite app_nil_r.
  - destruct (turn fuel s) as [s'|] eqn:Hturn.
    + apply turn_spec in Hturn as (t' & rest' & Ht' & _ & [k Hk]).
      rewrite Ht in Ht'. simpl in Ht'. injection Ht' as <- <-.
      rewrite <- app_assoc in Hk. destruct (IH _ _ Hk) as [new Hnew].
      exists (k ++ new). by rewrite Hnew, app_assoc.
    + unfold turn in Hturn. rewrite Ht in Hturn. simpl in Hturn.
      by destruct (call_fn _ _ _ _ _).
Qed.

Lemma fired_in_order fuel (q0 mid post : list value) t1 t2 s :
  timers s = q0 ++ t1 :: mid ++ t2 :: post →
  ∃ k1 k2, k1 < k2 ∧
    head (timers (run_loop k1 fuel s)) = Some t1 ∧
    head (timers (run_loop k2 fuel s)) = Some t2.
Proof.
  intros Ht. exists (length q0), (length (q0 ++ t1 :: mid)). split_and!.
  - rewrite length_app. simpl. lia.
  - destruct (run_loop_fifo fuel q0 _ s Ht) as [new ->]. done.
  - assert (Ht' : timers s = (q0 ++ t1 :: mid) ++ t2 :: post)
      by (rewrite Ht, <- app_assoc; done).
    destruct (run_loop_fifo fuel _ _ s Ht') as [new ->]. done.
Qed.

(** Two registrations on a pending object, with anything running in
    between and after, leave their entries in both queues in that order. *)
Lemma registered_in_order n this f1 g1 f2 g2 s0 s1 s2 s3 s4 r1 r2 o0 o2 o4 :
  heap s0 !! this = Some o0 → PromiseState o0 = pending → wf_obj o0 →
  ZPromise_then (call_fn (S n)) this f1 g1 s0 = (r1, s1) → evolves s1 s2 →
  heap s2 !! this = Some o2 → PromiseState o2 = pending →
  ZPromise_then (call_fn (S n)) this f2 g2 s2 = (r2, s3) → evolves s3 s4 →
  heap s4 !! this = Some o4 →
  let p1 := length (heap s0) in
  let p2 := length (heap s2) in
  wf_obj o4 ∧
  (∃ e e', onFulfilledCallbacks o4 =
     onFulfilledCallbacks o0 ++
       VCore (QueuedFulfilled this p1 f1 (VCore (BoundResolve p1)) (VCore (BoundReject p1)))
       :: e ++
       VCore (QueuedFulfilled this p2 f2 (VCore (BoundResolve p2)) (VCore (BoundReject p2)))
       :: e') ∧
  (∃ e e', onRejectedCallbacks o4 =
     onRejectedCallbacks o0 ++
       VCore (QueuedRejected this p1 g1 (VCore (BoundResolve p1)) (VCore (BoundReject p1)))
       :: e ++
       VCore (QueuedRejected this p2 g2 (VCore (BoundResolve p2)) (VCore (BoundReject p2)))
       :: e').
Proof.
  intros H0 Hp0 Hwf0 Ht1 E12 H2 Hp2 Ht2 E34 H4 p1 p2.
  rewrite (ZPromise_then_spec _ _ _ _ _ _ H0) in Ht1. injection Ht1 as _ <-.
  rewrite (ZPromise_then_spec _ _ _ _ _ _ H2) in Ht2. injection Ht2 as _ <-.
  pose proof (then_store_pending this f1 g1 o0 s0 H0 Hp0) as H1.
  pose proof (then_store_pending this f2 g2 o2 s2 H2 Hp2) as H3.
  destruct (ev_old _ _ E12 _ _ H1) as (o2' & H2' & _ & (ef & Hef & Wef) & (er & Her & Wer)).
  rewrite H2 in H2'. injection H2' as <-.
  destruct (ev_old _ _ E34 _ _ H3) as (o4' & H4' & _ & (ef' & Hef' & Wef') & (er' & Her' & Wer')).
  rewrite H4 in H4'. injection H4' as <-.
  simpl in *. fold p1 in Hef, Her. fold p2 in Hef', Her'.
  rewrite Hef in Hef'. rewrite Her in Her'. destruct Hwf0 as [Wf0 Wr0].
  split_and!.
  - split.
    + rewrite Hef'. repeat (apply Forall_app; split); auto; by repeat constructor.
    + rewrite Her'. repeat (apply Forall_app; split); auto; by repeat constructor.
  - exists ef, ef'. rewrite Hef'. by rewrite <- !app_assoc.
  - exists er, er'. rewrite Her'. by rewrite <- !app_assoc.
Qed.

(** Turn by turn. *)
Lemma run_loop_app k j fuel s :
  run_loop (k + j) fuel s = run_loop j fuel (run_loop k fuel s).
Proof.
  revert s. induction k as [|k IH]; intros s; simpl; [done|].
  destruct (turn fuel s) as [s'|] eqn:Ht; [apply IH|].
  destruct j; simpl; [done | by rewrite Ht].
Qed.

Lemma run_loop_S k fuel s : run_loop (S k) fuel s = run_loop 1 fuel (run_loop k fuel s).
Proof. rewrite <- run_loop_app. f_equal. lia. Qed.

Lemma run_loop_trace (k j fuel : nat) s :
  (k ≤ j)%nat → trace (run_loop k fuel s) `prefix_of` trace (run_loop j fuel s).
Proof.
  intros H. replace j with (k + (j - k)) by lia. rewrite run_loop_app.
  apply ev_trace, run_loop_evolves.
Qed.

(** The turn that finds the timer [t] at the head of the queue runs it. *)
Lemma turn_enters fuel k s t f args :
  head (timers (run_loop k fuel s)) = Some t →
  (∀ s', heap s' = heap (run_loop k fuel s) → trace s' = trace (run_loop k fuel s) →
     (trace s' ++ [EvInvoke f VUndefined args])
       `prefix_of` trace (call_fn fuel t VUndefined [] s').2) →
  enters fuel k s f args.
Proof.
  intros Hh Hrun. unfold enters. rewrite run_loop_S.
  set (s1 := run_loop k fuel s) in *.
  destruct (timers s1) as [|t' rest] eqn:Ht; [done|]. injection Hh as ->.
  destruct (turn_runs fuel s1 t rest _ Ht (Hrun (set_timers (fun _ => rest) s1) eq_refl eq_refl))
    as (s2 & Hturn & Hp).
  simpl. by rewrite Hturn.
Qed.

Lemma FulfilledTask_enters (fuel k : nat) s this p f resolve reject o :
  (2 ≤ fuel)%nat → foreign_function f →
  head (timers (run_loop k fuel s))
    = Some (VCore (FulfilledTask this p f resolve reject)) →
  heap (run_loop k fuel s) !! this = Some o →
  enters fuel k s f [PromiseResult o].
Proof.
  intros Hfuel Hf Hh Ho. destruct fuel as [|[|m]]; [lia..|].
  destruct f as [| | | | | | | |tag [body|] thenP]; try done.
  eapply turn_enters; [exact Hh|]. intros s' Hheap Htr.
  apply FulfilledTask_invokes. by rewrite Hheap.
Qed.

Lemma RejectedTask_enters (fuel k : nat) s this p g resolve reject o :
  (2 ≤ fuel)%nat → foreign_function g →
  head (timers (run_loop k fuel s))
    = Some (VCore (RejectedTask this p g resolve reject)) →
  heap (run_loop k fuel s) !! this = Some o →
  enters fuel k s g [PromiseResult o].
Proof.
  intros Hfuel Hf Hh Ho. destruct fuel as [|[|m]]; [lia..|].
  destruct g as [| | | | | | | |tag [body|] thenP]; try done.
  eapply turn_enters; [exact Hh|]. intros s' Hheap Htr.
  apply RejectedTask_invokes. by rewrite Hheap.
Qed.

(** Two turns, each beginning with an entry, leave the two entries in the
    trace in the order of the turns. *)
Lemma entered_in_order fuel s k1 k2 f1 f2 args1 args2 :
  k1 < k2 → enters fuel k1 s f1 args1 → enters fuel k2 s f2 args2 →
  ∃ t1 t2 t3,
    trace (run_loop (S k2) fuel s) =
    trace s ++ t1 ++ EvInvoke f1 VUndefined args1 :: t2 ++ EvInvoke f2 VUndefined args2 :: t3.
Proof.
  intros Hk [a Ha] [c Hc].
  destruct (run_loop_trace 0 k1 fuel s) as [t1 Ht1]; [lia|]. simpl in Ht1.
  destruct (run_loop_trace (S k1) k2 fuel s) as [b Hb]; [lia|].
  exists t1, (a ++ b), c. rewrite Hc, Hb, Ha, Ht1.
  repeat (rewrite <- app_assoc; simpl). done.
Qed.

(** C7: two reactions registered in the order r1, r2 on an object that is
    pending at both registrations, whatever runs in between and afterwards;
    when the object is then fulfilled (rejected), the timers that the drain
    leaves in the first-in-first-out timer queue carry r1 before r2, and
    the turn that runs the timer of r1 comes before the turn that runs the
    timer of r2.  When the handlers are functions of the caller and the
    depth of calls lets a timer run, the turn of r1 begins by entering the
    handler of r1 with the result, the later turn of r2 by entering the
    handler of r2 with it: in the trace the entry of the first handler comes
    before the entry of the second. *)
Theorem C7_reactions_fire_in_order (n fuel : nat) (this : nat) (f1 g1 f2 g2 : value)
    (s0 s1 s2 s3 s4 : state) (r1 r2 : outcome) (o0 o2 o4 : ZPromise) :
  heap s0 !! this = Some o0 → PromiseState o0 = pending → wf_obj o0 →
  ZPromise_then (call_fn (S n)) this f1 g1 s0 = (r1, s1) → evolves s1 s2 →
  heap s2 !! this = Some o2 → PromiseState o2 = pending →
  ZPromise_then (call_fn (S n)) this f2 g2 s2 = (r2, s3) → evolves s3 s4 →
  heap s4 !! this = Some o4 → PromiseState o4 = pending →
  let p1 := length (heap s0) in
  let p2 := length (heap s2) in
  (∀ data, ∃ s5 k1 k2,
     call_fn (S (S n)) (VCore (BoundResolve this)) VUndefined [data] s4
       = (Return VUndefined, s5) ∧ k1 < k2 ∧
     head (timers (run_loop k1 fuel s5)) =
       Some (VCore (FulfilledTask this p1 f1 (VCore (BoundResolve p1)) (VCore (BoundReject p1)))) ∧
     head (timers (run_loop k2 fuel s5)) =
       Some (VCore (FulfilledTask this p2 f2 (VCore (BoundResolve p2)) (VCore (BoundReject p2)))) ∧
     ((2 ≤ fuel)%nat → foreign_function f1 → foreign_function f2 →
        enters fuel k1 s5 f1 [data] ∧ enters fuel k2 s5 f2 [data] ∧
        ∃ t1 t2 t3,
          trace (run_loop (S k2) fuel s5) =
          trace s5 ++ t1 ++ EvInvoke f1 VUndefined [data]
                            :: t2 ++ EvInvoke f2 VUndefined [data] :: t3)) ∧
  (∀ reason, ∃ s5 k1 k2,
     call_fn (S (S n)) (VCore (BoundReject this)) VUndefined [reason] s4
       = (Return VUndefined, s5) ∧ k1 < k2 ∧
     head (timers (run_loop k1 fuel s5)) =
       Some (VCore (RejectedTask this p1 g1 (VCore (BoundResolve p1)) (VCore (BoundReject p1)))) ∧
     head (timers (run_loop k2 fuel s5)) =
       Some (VCore (RejectedTask this p2 g2 (VCore (BoundResolve p2)) (VCore (BoundReject p2)))) ∧
     ((2 ≤ fuel)%nat → foreign_function g1 → foreign_function g2 →
        enters fuel k1 s5 g1 [reason] ∧ enters fuel k2 s5 g2 [reason] ∧
        ∃ t1 t2 t3,
          trace (run_loop (S k2) fuel s5) =
          trace s5 ++ t1 ++ EvInvoke g1 VUndefined [reason]
                            :: t2 ++ EvInvoke g2 VUndefined [reason] :: t3)).
Proof.
  intros H0 Hp0 Hwf0 Ht1 E12 H2 Hp2 Ht2 E34 H4 Hp4 p1 p2.
  destruct (registered_in_order n this f1 g1 f2 g2 s0 s1 s2 s3 s4 r1 r2 o0 o2 o4)
    as ([Wf Wr] & (ef & ef' & Hf) & (er & er' & Hr)); auto.
  fold p1 p2 in Hf, Hr. split.
  - intros data.
    set (s5 := settle_store this fulfilled data o4 (onFulfilledCallbacks o4) s4).
    destruct (fired_in_order fuel (timers s4 ++ map scheduled (onFulfilledCallbacks o0))
                (map scheduled ef) (map scheduled ef')
                (VCore (FulfilledTask this p1 f1 (VCore (BoundResolve p1)) (VCore (BoundReject p1))))
                (VCore (FulfilledTask this p2 f2 (VCore (BoundResolve p2)) (VCore (BoundReject p2))))
                s5)
      as (k1 & k2 & Hk & Hk1 & Hk2).
    { simpl. rewrite Hf, !map_app, <- app_assoc. simpl. by rewrite map_app. }
    exists s5, k1, k2. rewrite call_fn_S. simpl.
    split; [by apply resolve_pending|]. split_and!; [done..|].
    intros Hfuel Hf1 Hf2.
    assert (Hres : ∀ k, heap (run_loop k fuel s5) !! this
                        = Some (mkZPromise fulfilled data (onFulfilledCallbacks o4)
                                  (onRejectedCallbacks o4))).
    { intros k. eapply evolves_settled; [apply run_loop_evolves| |done].
      by apply settle_store_this. }
    pose proof (FulfilledTask_enters fuel k1 s5 _ _ _ _ _ _ Hfuel Hf1 Hk1 (Hres k1)) as He1.
    pose proof (FulfilledTask_enters fuel k2 s5 _ _ _ _ _ _ Hfuel Hf2 Hk2 (Hres k2)) as He2.
    simpl in He1, He2. split_and!; [done..|].
    exact (entered_in_order fuel s5 k1 k2 _ _ _ _ Hk He1 He2).
  - intros reason.
    set (s5 := settle_store this rejected reason o4 (onRejectedCallbacks o4) s4).
    destruct (fired_in_order fuel (timers s4 ++ map scheduled (onRejectedCallbacks o0))
                (map scheduled er) (map scheduled er')
                (VCore (RejectedTask this p1 g1 (VCore (BoundResolve p1)) (VCore (BoundReject p1))))
                (VCore (RejectedTask this p2 g2 (VCore (BoundResolve p2)) (VCore (BoundReject p2))))
                s5)
      as (k1 & k2 & Hk & Hk1 & Hk2).
    { simpl. rewrite Hr, !map_app, <- app_assoc. simpl. by rewrite map_app. }
    exists s5, k1, k2. rewrite call_fn_S. simpl.
    split; [by apply reject_pending|]. split_and!; [done..|].
    intros Hfuel Hg1 Hg2.
    assert (Hres : ∀ k, heap (run_loop k fuel s5) !! this
                        = Some (mkZPromise rejected reason (onFulfilledCallbacks o4)
                                  (onRejectedCallbacks o4))).
    { intros k. eapply evolves_settled; [apply run_loop_evolves| |done].
      by apply settle_store_this. }
    pose proof (RejectedTask_enters fuel k1 s5 _ _ _ _ _ _ Hfuel Hg1 Hk1 (Hres k1)) as He1.
    pose proof (RejectedTask_enters fuel k2 s5 _ _ _ _ _ _ Hfuel Hg2 Hk2 (Hres k2)) as He2.
    simpl in He1, He2. split_and!; [done..|].
    exact (entered_in_order fuel s5 k1 k2 _ _ _ _ Hk He1 He2).
Qed.

Lemma C7_reactions_fire_in_order_witness :
  ∃ s5 k1 k2,
    call_fn 2 (VCore (BoundResolve 0)) VUndefined [VNum 9] twice_registered
      = (Return VUndefined, s5) ∧ k1 < k2 ∧
    enters 4 k1 s5 (log_handler 1) [VNum 9] ∧
    enters 4 k2 s5 (log_handler 3) [VNum 9] ∧
    ∃ t1 t2 t3,
      trace (run_loop (S k2) 4 s5) =
      trace s5 ++ t1 ++ EvInvoke (log_handler 1) VUndefined [VNum 9]
                        :: t2 ++ EvInvoke (log_handler 3) VUndefined [VNum 9] :: t3.
Proof.
  pose proof (C7_reactions_fire_in_order 0 4 0
    (log_handler 1) (log_handler 2) (log_handler 3) (log_handler 4)
    pending_store once_registered once_registered twice_registered twice_registered
    (Return (VZPromise 1)) (Return (VZPromise 2))
    (mkZPromise pending VNull [] [])
    (default (mkZPromise pending VNull [] []) (heap once_registered !! 0))
    (default (mkZPromise pending VNull [] []) (heap twice_registered !! 0))) as Hall.
  repeat (lapply Hall;
          [clear Hall; intros Hall
          | first [reflexivity | apply evolves_refl | split; constructor]]).
  cbv zeta in Hall. destruct Hall as [Hall _].
  destruct (Hall (VNum 9)) as (s5 & k1 & k2 & Hc & Hk & _ & _ & Hent).
  destruct Hent as (He1 & He2 & Hord); [lia | exact I | exact I |].
  exists s5, k1, k2. split_and!; done.
Defined.

(** ** Pass-through of a rejection *)

(** The timer of a reaction whose [onRejected] is not a function rejects
    the new object with the result of the receiver. *)
Lemma RejectedTask_passes n this p onRejected s o op :
  typeof onRejected ≠ "function" →
  heap s !! this = Some o → heap s !! p = Some op →
  PromiseState op = pending → Forall is_queued (onRejectedCallbacks op) →
  call_fn (S (S (S n)))
    (VCore (RejectedTask this p onRejected (VCore (BoundResolve p)) (VCore (BoundReject p))))
    VUndefined [] s =
  (Return VUndefined,
   settle_store p rejected (PromiseResult o) op (onRejectedCallbacks op) s).
Proof.
  intros Hty H Hp Hpend Hq. rewrite call_fn_S. unfold call_step, call_core.
  apply String.eqb_neq in Hty. rewrite Hty.
  unfold try_catch, get_this, bind. rewrite H. rewrite call_fn_S. simpl.
  by rewrite (reject_pending _ _ _ _ _ Hp Hpend Hq).
Qed.

Lemma turn_return fuel s t rest v s' :
  timers s = t :: rest →
  call_fn fuel t VUndefined [] (set_timers (fun _ => rest) s) = (Return v, s') →
  turn fuel s = Some s'.
Proof. intros Ht Hc. unfold turn. by rewrite Ht, Hc. Qed.

(** C8: [this.then(onFulfilled, onRejected)] with [onRejected] omitted or
    not a function.  When [this] is already rejected with [E], the next turn
    of the timer queue rejects the new object with the same [E]; when [this]
    is pending and is rejected with [E] afterwards, the turn after that does.
    In both cases the timer returns normally (nothing is reported to the
    trace), and in general the timer of such a reaction, whenever it runs
    with the new object still pending, rejects it with the receiver's
    result. *)
Theorem C8_rejection_passes_through (n : nat) (this : nat) (onFulfilled onRejected E : value)
    (s : state) (o : ZPromise) :
  typeof onRejected ≠ "function" →
  heap s !! this = Some o → timers s = [] →
  let p := length (heap s) in
  (PromiseState o = rejected → PromiseResult o = E →
     ∃ s1 s2,
       ZPromise_then (call_fn (S n)) this onFulfilled onRejected s
         = (Return (VZPromise p), s1) ∧
       turn (S (S (S n))) s1 = Some s2 ∧
       heap s2 !! p = Some (mkZPromise rejected E [] []) ∧
       trace s2 = trace s) ∧
  (PromiseState o = pending → onRejectedCallbacks o = [] →
     ∃ s1 s2 s3,
       ZPromise_then (call_fn (S n)) this onFulfilled onRejected s
         = (Return (VZPromise p), s1) ∧
       call_fn (S (S n)) (VCore (BoundReject this)) VUndefined [E] s1
         = (Return VUndefined, s2) ∧
       turn (S (S (S n))) s2 = Some s3 ∧
       heap s3 !! p = Some (mkZPromise rejected E [] []) ∧
       trace s3 = trace s) ∧
  (∀ s' o' op, heap s' !! this = Some o' → heap s' !! p = Some op →
     PromiseState op = pending → wf_obj op →
     ∃ s'', call_fn (S (S (S n)))
              (VCore (RejectedTask this p onRejected (VCore (BoundResolve p))
                        (VCore (BoundReject p)))) VUndefined [] s'
            = (Return VUndefined, s'') ∧
       heap s'' !! p = Some (mkZPromise rejected (PromiseResult o')
                               (onFulfilledCallbacks op) (onRejectedCallbacks op))).
Proof.
  intros Hty H Ht p.
  assert (Hlt : this < p) by by eapply lookup_lt_Some.
  assert (Hfresh : ∀ h : list ZPromise, length h = p →
            (h ++ [mkZPromise pending VNull [] []]) !! p = Some (mkZPromise pending VNull [] [])).
  { intros h <-. by rewrite lookup_app_r, Nat.sub_diag. }
  split_and!.
  - intros Hs HE. eexists _, _. split; [by apply ZPromise_then_spec|].
    unfold then_store. rewrite Hs. fold p. split.
    + eapply turn_return; [simpl; by rewrite Ht|].
      apply RejectedTask_passes with (op := mkZPromise pending VNull [] []); simpl;
        [done | by apply lookup_app_l_Some | by apply Hfresh | done | constructor].
    + simpl. split; [|done]. rewrite HE.
      apply list_lookup_insert_eq. rewrite length_app. simpl. lia.
  - intros Hs Hq. eexists _, _, _. split; [by apply ZPromise_then_spec|].
    pose proof (then_store_pending this onFulfilled onRejected o s H Hs) as H1.
    rewrite Hq in H1. fold p in H1. simpl in H1.
    rewrite call_fn_S. simpl call_step.
    split; [eapply reject_pending; [exact H1 | done | by repeat constructor]|].
    split.
    + eapply turn_return.
      { simpl timers. unfold then_store. rewrite Hs. simpl timers. rewrite Ht. done. }
      apply RejectedTask_passes with (op := mkZPromise pending VNull [] []); simpl;
        [done | | | done | constructor].
      * apply list_lookup_insert_eq. unfold then_store. rewrite Hs. simpl.
        rewrite length_insert, length_app. simpl. lia.
      * rewrite list_lookup_insert_ne by lia. unfold then_store. rewrite Hs. simpl.
        rewrite list_lookup_insert_ne by lia. by apply Hfresh.
    + simpl. split.
      * apply list_lookup_insert_eq. rewrite length_insert. unfold then_store.
        rewrite Hs. simpl. rewrite length_insert, length_app. simpl. lia.
      * unfold then_store. by rewrite Hs.
  - intros s' o' op H' Hp' Hpend [_ Hq]. eexists.
    split; [by eapply RejectedTask_passes|]. by apply settle_store_this.
Qed.

Lemma C8_rejection_passes_through_witness :
  ∃ s1 s2,
    ZPromise_then (call_fn 1) 0 (log_handler 1) VUndefined rejected_store
      = (Return (VZPromise 1), s1) ∧
    turn 3 s1 = Some s2 ∧
    heap s2 !! 1 = Some (mkZPromise rejected (VStr "E") [] []) ∧
    trace s2 = [].
Proof.
  refine (proj1 (C8_rejection_passes_through 0 0 (log_handler 1) VUndefined (VStr "E")
    rejected_store (mkZPromise rejected (VStr "E") [] []) _ _ _) _ _).
  - simpl. discriminate.
  - reflexivity.
  - reflexivity.
  - reflexivity.
  - reflexivity.
Defined.

(** ** A chaining cycle *)

(** With the cycle reached directly, the timer of the reaction catches the
    TypeError and rejects the target. *)
Lemma direct_cycle_rejected :
  let s := run_main 5 10 direct_cycle in
  timers s = [] ∧ state_of s 1 = Some rejected ∧ result_of s 1 = Some cycle_error ∧
  uncaught s = [].
Proof. by vm_compute. Qed.

(** C2 at the failing inputs.  Through a nested ZPromise the TypeError is
    caught by the timer of the inner [then] (line 46) and rejects the object
    that this inner [then] created (address 3), not the target (address 2);
    through a thenable's resolve continuation it is dropped by the test of
    [called] (line 94), or, called from a timer, escapes uncaught.  In all
    three the timer queue ends empty with the target pending. *)
Theorem C2_cycle_leaves_target_pending :
  (let s := run_main 5 10 nested_cycle in
   timers s = [] ∧ state_of s 2 = Some pending ∧
   state_of s 3 = Some rejected ∧ result_of s 3 = Some cycle_error) ∧
  (let s := run_main 5 10 thenable_cycle in
   timers s = [] ∧ state_of s 1 = Some pending ∧ uncaught s = []) ∧
  (let s := run_main 5 10 late_thenable_cycle in
   timers s = [] ∧ state_of s 1 = Some pending ∧ uncaught s = [cycle_error]).
Proof. by vm_compute. Qed.

(** ** The decision table of [resolveNextPromise] *)

Lemma resolveNextPromise_tagged call p x resolve reject :
  is_ZPromise x = false → object_tag x = true →
  resolveNextPromise call p x resolve reject =
  bind (try_catch (get_then call x)
          (fun error => call reject VUndefined [error] >> ret VUndefined))
       (after_read call p x resolve reject).
Proof.
  intros Hz Ht. unfold resolveNextPromise, object_tag in *.
  destruct x; try done; simpl in *; by rewrite Ht.
Qed.

Lemma resolveNextPromise_untagged call p x resolve reject :
  is_ZPromise x = false → object_tag x = false →
  resolveNextPromise call p x resolve reject =
  (call resolve VUndefined [x] >> ret VUndefined).
Proof.
  intros Hz Ht. unfold resolveNextPromise, object_tag in *.
  destruct x; try done; simpl in *; by rewrite Ht.
Qed.

Lemma get_then_data call x s :
  has_getter x = false →
  get_then call x s = (Return (then_data x), set_trace (fun t => t ++ [EvGetThen x]) s).
Proof.
  intros Hg. unfold get_then, bind, log.
  destruct x as [| | | | | | | |tag c [|v|body]]; done.
Qed.

Lemma after_read_preserves fuel p x resolve reject thenFunc :
  preserves (after_read (call_fn fuel) p x resolve reject thenFunc).
Proof.
  unfold after_read. destruct (String.eqb _ _).
  - intros s. eapply grows_trans; [apply grows_alloc_cell|].
    apply preserves_at. apply preserves_bind; [|intros; apply preserves_ret].
    apply preserves_try_catch; [apply call_fn_preserves|]. intros e.
    apply preserves_get_called. intros []; [apply preserves_ret|].
    apply preserves_bind; [apply preserves_set_called | intros; apply call_fn_preserves].
  - apply preserves_bind; [apply call_fn_preserves | intros; apply preserves_ret].
Qed.

Lemma prefix_bind (m : M) k s tr :
  tr `prefix_of` trace (m s).2 → (∀ v, preserves (k v)) →
  tr `prefix_of` trace (bind m k s).2.
Proof.
  intros Hm Hk. unfold bind. destruct (m s) as [[v|e|] s1]; simpl in *; try done.
  destruct (Hk v s1) as [[_ _ _ Ht] _]. by etrans.
Qed.

Lemma prefix_try (m : M) h s tr :
  tr `prefix_of` trace (m s).2 → (∀ e, preserves (h e)) →
  tr `prefix_of` trace (try_catch m h s).2.
Proof.
  intros Hm Hh. unfold try_catch. destruct (m s) as [[v|e|] s1]; simpl in *; try done.
  destruct (Hh e s1) as [[_ _ _ Ht] _]. by etrans.
Qed.

(** For a tagged value the property is read, whatever happens next. *)
Lemma then_is_read fuel p x resolve reject s :
  is_ZPromise x = false → object_tag x = true →
  (trace s ++ [EvGetThen x]) `prefix_of`
  trace (resolveNextPromise (call_fn fuel) p x resolve reject s).2.
Proof.
  intros Hz Ht. rewrite resolveNextPromise_tagged by done.
  apply prefix_bind; [|intros; apply after_read_preserves].
  apply prefix_try.
  - unfold get_then. apply prefix_bind; [done|]. intros _.
    destruct x as [| | | | | | | |tag c [|v|body]];
      first [apply preserves_ret | apply call_fn_preserves].
  - intros e. apply preserves_bind; [apply call_fn_preserves | intros; apply preserves_ret].
Qed.

(** Fulfilling a pending target through its bound [resolve]. *)
Lemma resolve_call_pending n p data s o :
  heap s !! p = Some o → PromiseState o = pending → wf_obj o →
  (call_fn (S (S n)) (VCore (BoundResolve p)) VUndefined [data] >> ret VUndefined) s =
  (Return VUndefined, settle_store p fulfilled data o (onFulfilledCallbacks o) s).
Proof.
  intros H Hp [Hq _]. unfold bind. rewrite call_fn_S. simpl call_step.
  by rewrite (resolve_pending _ _ _ _ _ H Hp Hq).
Qed.

(** C3 at the failing inputs.  The candidate [x] is an object, neither the
    target nor a ZPromise, whose [then] is callable, so the claim has [x]
    adopted.  The test of line 47 goes by the tag of [x]: when it is neither
    "[object Object]" nor "[object Function]" (an array, a Date, an async
    function), [x.then] is not read and the target is fulfilled with [x]
    itself.  The test of line 60 goes by the tag of [x.then]: when the
    callable [then] is not tagged "[object Function]" (an async function),
    it is read and not called, and the target is fulfilled with [x] itself.
    In a program: a reaction that returns { then(res) { res(5) } } fulfills
    the promise of its [then] with 5, the same [then] on an array, or an
    async [then] on an object, fulfills it with the array, the object. *)
Theorem C3_callable_then_not_adopted (n : nat) (p : nat) (tag : string)
    (call : option (list cmd)) (f : value) (s : state) (o : ZPromise) :
  let x := VForeign tag call (PData f) in
  let resolve := VCore (BoundResolve p) in
  let reject := VCore (BoundReject p) in
  let r := resolveNextPromise (call_fn (S (S n))) p x resolve reject s in
  typeof f = "function" →
  heap s !! p = Some o → PromiseState o = pending → wf_obj o →
  (object_or_callable x = true ∧ is_ZPromise x = false ∧
   typeof (then_data x) = "function") ∧
  (object_tag x = false →
     r = (Return VUndefined, settle_store p fulfilled x o (onFulfilledCallbacks o) s) ∧
     trace r.2 = trace s ∧
     heap r.2 !! p = Some (mkZPromise fulfilled x (onFulfilledCallbacks o)
                             (onRejectedCallbacks o))) ∧
  (object_tag x = true → getType f ≠ "[object Function]" →
     r = (Return VUndefined,
          settle_store p fulfilled x o (onFulfilledCallbacks o)
            (set_trace (fun t => t ++ [EvGetThen x]) s)) ∧
     trace r.2 = trace s ++ [EvGetThen x] ∧
     heap r.2 !! p = Some (mkZPromise fulfilled x (onFulfilledCallbacks o)
                             (onRejectedCallbacks o))) ∧
  (let s1 := run_main 5 10 (returning thenable_5) in
   timers s1 = [] ∧ state_of s1 1 = Some fulfilled ∧ result_of s1 1 = Some (VNum 5)) ∧
  (let s1 := run_main 5 10 (returning array_thenable) in
   timers s1 = [] ∧ state_of s1 1 = Some fulfilled ∧
   result_of s1 1 = Some array_thenable) ∧
  (let s1 := run_main 5 10 (returning async_thenable) in
   timers s1 = [] ∧ state_of s1 1 = Some fulfilled ∧
   result_of s1 1 = Some async_thenable).
Proof.
  intros x resolve reject r Hty H Hp Hwf. split_and!.
  - unfold x. simpl. by destruct call.
  - done.
  - done.
  - intros Ht.
    assert (Hr : r = (Return VUndefined,
                      settle_store p fulfilled x o (onFulfilledCallbacks o) s)).
    { unfold r. rewrite resolveNextPromise_untagged by done.
      by apply resolve_call_pending. }
    rewrite Hr. split_and!; [done..|]. by apply settle_store_this.
  - intros Ht Hf.
    assert (Hr : r = (Return VUndefined,
                      settle_store p fulfilled x o (onFulfilledCallbacks o)
                        (set_trace (fun t => t ++ [EvGetThen x]) s))).
    { unfold r. rewrite resolveNextPromise_tagged by done.
      unfold bind at 1, try_catch at 1. rewrite get_then_data by done.
      unfold after_read. apply String.eqb_neq in Hf.
      change (then_data x) with f. rewrite Hf.
      by apply resolve_call_pending. }
    rewrite Hr. split_and!; [done..|]. by apply settle_store_this.
  - by vm_compute.
  - by vm_compute.
  - by vm_compute.
Qed.

Lemma C3_callable_then_not_adopted_witness :
  resolveNextPromise (call_fn 2) 0 array_thenable (VCore (BoundResolve 0))
    (VCore (BoundReject 0)) pending_store
  = (Return VUndefined,
     settle_store 0 fulfilled array_thenable (mkZPromise pending VNull [] []) []
       pending_store) ∧
  resolveNextPromise (call_fn 2) 0 async_thenable (VCore (BoundResolve 0))
    (VCore (BoundReject 0)) pending_store
  = (Return VUndefined,
     settle_store 0 fulfilled async_thenable (mkZPromise pending VNull [] []) []
       (set_trace (fun t => t ++ [EvGetThen async_thenable]) pending_store)).
Proof.
  split.
  - refine (proj1 (proj1 (proj2 (C3_callable_then_not_adopted 0 0 "Array" None
      (fn [CCall 9 (EArg 0) [EConst (VNum 5)]]) pending_store
      (mkZPromise pending VNull [] []) _ _ _ _)) _)).
    + reflexivity.
    + reflexivity.
    + reflexivity.
    + split; constructor.
    + reflexivity.
  - refine (proj1 (proj1 (proj2 (proj2 (C3_callable_then_not_adopted 0 0 "Object" None
      (VForeign "AsyncFunction" (Some [CCall 9 (EArg 0) [EConst (VNum 5)]]) PAbsent)
      pending_store (mkZPromise pending VNull [] []) _ _ _ _))) _ _)).
    + reflexivity.
    + reflexivity.
    + reflexivity.
    + split; constructor.
    + reflexivity.
    + simpl. discriminate.
Defined.

(** ** The two continuations given to a thenable *)

Lemma set_called_true s c b :
  cells s !! c = Some b →
  cells (set_cells (fun l => <[c := true]> l) s) !! c = Some true.
Proof. intros H. simpl. apply list_lookup_insert_eq. by eapply lookup_lt_Some. Qed.

Lemma resolveNextPromise_data call p x resolve reject s :
  is_ZPromise x = false → object_tag x = true → has_getter x = false →
  resolveNextPromise call p x resolve reject s =
  after_read call p x resolve reject (then_data x)
    (set_trace (fun t => t ++ [EvGetThen x]) s).
Proof.
  intros Hz Ht Hg. rewrite resolveNextPromise_tagged by done.
  unfold bind, try_catch. by rewrite get_then_data.
Qed.

Lemma after_read_throw call p x resolve reject thenFunc e s0 s2 :
  getType thenFunc = "[object Function]" →
  call thenFunc x [VCore (ResolvePromise (length (cells s0)) p resolve reject);
                   VCore (RejectPromise (length (cells s0)) reject)]
    (set_cells (fun l => l ++ [false]) s0) = (Throw e, s2) →
  (cells s2 !! length (cells s0) = Some true →
     after_read call p x resolve reject thenFunc s0 = (Return VUndefined, s2)) ∧
  (cells s2 !! length (cells s0) = Some false →
     after_read call p x resolve reject thenFunc s0 =
       (call reject VUndefined [e] >> ret VUndefined)
         (set_cells (fun l => <[length (cells s0) := true]> l) s2)).
Proof.
  intros Hf Hcall. unfold after_read. rewrite Hf. simpl.
  unfold bind, try_catch. rewrite Hcall. unfold get_called.
  split; intros Hc; rewrite Hc; [done|].
  unfold set_called. by destruct (call reject _ _ _) as [[] ?].
Qed.

(** C5: the two continuations handed to a thenable's [then] share the cell
    [c] of [called].  While the cell is false, the first call of either one
    sets it and takes effect (the resolve continuation re-enters the
    procedure with its argument, the reject continuation calls [reject]); a
    cell that is set stays set through every call and every turn, and with
    the cell set a call of either continuation, with any arguments, returns
    leaving the whole store as it was.  An exception thrown out of the
    [then] call is dropped when the cell is set, and otherwise sets the cell
    and rejects.  So { then(res, rej) { res(5) } } fulfills the target with
    5, a later res(6), rej(7) or throw changes nothing, and after a throw
    that came first a later res(5) changes nothing. *)
Theorem C5_first_settlement_wins (n turns : nat) (c p : nat)
    (resolve reject this : value) (args : list value) (s : state) :
  let resolvePromise := VCore (ResolvePromise c p resolve reject) in
  let rejectPromise := VCore (RejectPromise c reject) in
  (cells s !! c = Some false →
     call_fn (S n) resolvePromise this args s =
       resolveNextPromise (call_fn n) p (arg 0 args) resolve reject
         (set_cells (fun l => <[c := true]> l) s) ∧
     call_fn (S n) rejectPromise this args s =
       (call_fn n reject VUndefined [arg 0 args] >> ret VUndefined)
         (set_cells (fun l => <[c := true]> l) s) ∧
     cells (call_fn (S n) resolvePromise this args s).2 !! c = Some true ∧
     cells (call_fn (S n) rejectPromise this args s).2 !! c = Some true) ∧
  (cells s !! c = Some true →
     call_fn (S n) resolvePromise this args s = (Return VUndefined, s) ∧
     call_fn (S n) rejectPromise this args s = (Return VUndefined, s) ∧
     (∀ f this' args', cells (call_fn n f this' args' s).2 !! c = Some true) ∧
     cells (run_loop turns n s) !! c = Some true) ∧
  (∀ x thenFunc e s2,
     is_ZPromise x = false → object_tag x = true → has_getter x = false →
     then_data x = thenFunc → getType thenFunc = "[object Function]" →
     c = length (cells s) →
     call_fn n thenFunc x [resolvePromise; rejectPromise]
       (set_cells (fun l => l ++ [false]) (set_trace (fun t => t ++ [EvGetThen x]) s))
       = (Throw e, s2) →
     (cells s2 !! c = Some true →
        resolveNextPromise (call_fn n) p x resolve reject s = (Return VUndefined, s2)) ∧
     (cells s2 !! c = Some false →
        resolveNextPromise (call_fn n) p x resolve reject s =
          (call_fn n reject VUndefined [e] >> ret VUndefined)
            (set_cells (fun l => <[c := true]> l) s2))) ∧
  (heap (adopt thenable_5) !! 0 = Some (mkZPromise fulfilled (VNum 5) [] []) ∧
   heap (adopt noisy_thenable) !! 0 = Some (mkZPromise fulfilled (VNum 5) [] []) ∧
   uncaught (adopt noisy_thenable) = [] ∧
   heap (adopt throwing_thenable) !! 0 = Some (mkZPromise rejected (VNum 8) [] []) ∧
   timers (adopt throwing_thenable) = []).
Proof.
  intros resolvePromise rejectPromise. split_and!.
  - intros Hc.
    assert (E1 : call_fn (S n) resolvePromise this args s =
       resolveNextPromise (call_fn n) p (arg 0 args) resolve reject
         (set_cells (fun l => <[c := true]> l) s)).
    { rewrite call_fn_S. simpl. unfold get_called. by rewrite Hc. }
    assert (E2 : call_fn (S n) rejectPromise this args s =
       (call_fn n reject VUndefined [arg 0 args] >> ret VUndefined)
         (set_cells (fun l => <[c := true]> l) s)).
    { rewrite call_fn_S. simpl. unfold get_called. by rewrite Hc. }
    split_and!; [exact E1 | exact E2 | rewrite E1 | rewrite E2].
    + eapply evolves_called; [apply resolveNextPromise_fn_preserves|].
      by eapply set_called_true.
    + eapply evolves_called; [|by eapply set_called_true].
      refine (proj1 (preserves_at _ _ _)).
      apply preserves_bind; [apply call_fn_preserves | intros; apply preserves_ret].
  - intros Hc. split_and!.
    + rewrite call_fn_S. simpl. unfold get_called. by rewrite Hc.
    + rewrite call_fn_S. simpl. unfold get_called. by rewrite Hc.
    + intros f this' args'. eapply evolves_called; [apply call_fn_preserves | done].
    + eapply evolves_called; [apply run_loop_evolves | done].
  - intros x thenFunc e s2 Hz Ht Hg Hd Hf -> Hcall.
    rewrite resolveNextPromise_data by done. rewrite Hd.
    by apply (after_read_throw (call_fn n) p x resolve reject thenFunc e
                (set_trace (fun t => t ++ [EvGetThen x]) s) s2).
  - by vm_compute.
  - by vm_compute.
  - by vm_compute.
  - by vm_compute.
  - by vm_compute.
Qed.

Lemma C5_first_settlement_wins_witness :
  call_fn 1 (VCore (ResolvePromise 0 0 VUndefined VUndefined)) VUndefined [VNum 6]
    called_store = (Return VUndefined, called_store).
Proof.
  exact (proj1 (proj1 (proj2 (C5_first_settlement_wins 0 0 0 0 VUndefined VUndefined
    VUndefined [VNum 6] called_store)) eq_refl)).
Defined.

(** ** The read of [x.then] *)



(** ** Unwrapping nested ZPromises *)

Lemma resolveNextPromise_plain n p v s o :
  plain v → heap s !! p = Some o → PromiseState o = pending → wf_obj o →
  resolveNextPromise (call_fn (S (S n))) p v (VCore (BoundResolve p)) (VCore (BoundReject p)) s
  = (Return VUndefined,
     settle_store p fulfilled v o (onFulfilledCallbacks o) (read_store v s)).
Proof.
  intros [Hz Hv] H Hp Hwf. unfold read_store.
  destruct (object_tag v) eqn:Ht.
  - destruct Hv as [|[Hg Hf]]; [done|].
    rewrite resolveNextPromise_data by done. unfold after_read.
    apply String.eqb_neq in Hf. rewrite Hf. by apply resolve_call_pending.
  - rewrite resolveNextPromise_untagged by done. by apply resolve_call_pending.
Qed.


Section Adoption.
(** The target. *)
Variable b : nat.


Lemma call_BoundReject n p e s :
  call_fn (S n) (VCore (BoundReject p)) VUndefined [e] s = ZPromise_reject (call_fn n) p e s.
Proof. reflexivity. Qed.

Lemma call_BoundResolve n p v s :
  call_fn (S n) (VCore (BoundResolve p)) VUndefined [v] s = ZPromise_resolve (call_fn n) p v s.
Proof. reflexivity. Qed.

(** [resolveNextPromise b (VZPromise c)] on a ZPromise other than [b]:
    line 46, [c.then(unwrap, reject)]. *)
Lemma adopt_start n c s oc :
  c ≠ b → heap s !! c = Some oc →
  resolveNextPromise (call_fn (S n)) b (VZPromise c)
    (VCore (BoundResolve b)) (VCore (BoundReject b)) s
  = (Return VUndefined, then_store c (unwrap b) (VCore (BoundReject b)) oc s).
Proof.
  intros Hne H. unfold resolveNextPromise. simpl.
  destruct (Nat.eqb_spec b c) as [->|_]; [done|].
  unfold bind. by rewrite (ZPromise_then_spec _ _ _ _ _ _ H).
Qed.



End Adoption.


Section Unwrapping.
Variable b : nat.
Variable n : nat.








End Unwrapping.



Lemma nested_script_unwraps :
  let s := run_main 10 10 nested_script in
  timers s = [] ∧ state_of s 3 = Some fulfilled ∧ result_of s 3 = Some (VNum 7) ∧
  uncaught s = [].
Proof. by vm_compute. Qed.


(** * Further properties of core.js *)

(** ** The constructor *)

(** Draining a queue of [then] never throws, whatever depth of calls is
    left. *)
Lemma forEach_queued_no_throw fuel q s e :
  Forall is_queued q →
  (forEach q (fun callback => call_fn fuel callback VUndefined []) s).1 ≠ Throw e.
Proof.
  intros Hq. destruct fuel as [|n].
  - destruct q as [|x q]; simpl; [done|]. unfold bind. by simpl.
  - by rewrite forEach_queued.
Qed.

Lemma reject_no_throw fuel this reason s o e :
  heap s !! this = Some o → wf_obj o →
  (ZPromise_reject (call_fn fuel) this reason s).1 ≠ Throw e.
Proof.
  intros H [_ Hq]. unfold ZPromise_reject, get_this. rewrite H.
  destruct (PromiseState o); try done.
  unfold bind, put_this. 
  pose proof (forEach_queued_no_throw fuel (onRejectedCallbacks o)
    (set_heap (fun h => <[this := mkZPromise rejected reason (onFulfilledCallbacks o)
                                    (onRejectedCallbacks o)]> h) s) e Hq) as Hf.
  destruct (forEach _ _ _) as [[] ?]; simpl in *; done.
Qed.

(** The object under construction is in the heap, with well-formed queues,
    whatever the executor did. *)
Lemma constructed_object fuel f this args s s1 r :
  call_fn fuel f this args (allocate s) = (r, s1) →
  ∃ o1, heap s1 !! length (heap s) = Some o1 ∧ wf_obj o1.
Proof.
  intros Hc.
  pose proof (call_fn_preserves fuel f this args (allocate s)) as [He _].
  rewrite Hc in He. simpl in He.
  assert (Ha : heap (allocate s) !! length (heap s) = Some fresh)
    by (simpl; by rewrite lookup_app_r, Nat.sub_diag).
  destruct (ev_old _ _ He _ _ Ha) as (o1 & H1 & Ho). exists o1. split; [done|].
  eapply obj_evolves_wf; [exact Ho|]. split; constructor.
Qed.

(** X1: [new ZPromise(executor)] throws exactly when [executor] is not
    callable: then it throws the TypeError of line 143 and the store is as it
    was (nothing is allocated, nothing is rejected).  With a callable
    executor the constructor never throws, whatever the executor does, and
    whenever the call of the executor comes to an end, by a return or by a
    throw, the constructor returns the object at the first free address,
    which is then in the heap. *)
Theorem constructor_throws_iff_not_callable (fuel : nat) (executor : value) (s : state) :
  let this := length (heap s) in
  (typeof executor ≠ "function" →
     ZPromise_new (call_fn fuel) executor s
     = (Throw (TypeError "Promise executor is not a function"), s)) ∧
  (typeof executor = "function" →
     (∀ e, (ZPromise_new (call_fn fuel) executor s).1 ≠ Throw e) ∧
     ((call_fn fuel executor VUndefined
         [VCore (BoundResolve this); VCore (BoundReject this)] (allocate s)).1
        ≠ OutOfFuel →
      ∃ s', ZPromise_new (call_fn fuel) executor s = (Return (VZPromise this), s') ∧
            is_Some (heap s' !! this))).
Proof.
  intros this. split.
  - intros Hty. unfold ZPromise_new. apply String.eqb_neq in Hty. by rewrite Hty.
  - intros Hty. rewrite ZPromise_new_allocate by done.
    unfold bind, try_catch. fold this.
    destruct (call_fn fuel executor VUndefined _ (allocate s)) as [r s1] eqn:Hc.
    destruct (constructed_object _ _ _ _ _ _ _ Hc) as (o1 & H1 & Hwf).
    destruct r as [v|e|]; simpl.
    + split; [done|]. intros _. eexists. split; [done|]. by exists o1.
    + destruct fuel as [|n]; [done|].
      destruct (decide (PromiseState o1 = pending)) as [Hp|Hp].
      * rewrite (reject_pending _ _ _ _ _ H1 Hp (proj2 Hwf)). simpl.
        split; [done|]. intros _. eexists. split; [done|].
        rewrite (settle_store_this _ _ _ _ _ _ H1). by eexists.
      * rewrite (reject_settled _ _ _ _ _ H1 Hp). simpl.
        split; [done|]. intros _. eexists. split; [done|]. by exists o1.
    + split; done.
Qed.

Lemma constructor_throws_iff_not_callable_witness :
  ZPromise_new (call_fn 3) (VNum 1) initial
  = (Throw (TypeError "Promise executor is not a function"), initial) ∧
  ∃ s', ZPromise_new (call_fn 3) (fn [CThrow (EConst (VNum 7))]) initial
        = (Return (VZPromise 0), s') ∧
        is_Some (heap s' !! 0).
Proof.
  split.
  - refine (proj1 (constructor_throws_iff_not_callable 3 (VNum 1) initial) _).
    simpl. discriminate.
  - refine (proj2 (proj2 (constructor_throws_iff_not_callable 3
      (fn [CThrow (EConst (VNum 7))]) initial) _) _).
    + reflexivity.
    + vm_compute. discriminate.
Defined.

(** X2: an executor that throws [e].  The constructor catches it and
    returns the new object: rejected with [e] when the executor left it
    pending, and exactly as the executor left it when the executor had
    already settled it (the exception is then dropped). *)
Theorem executor_throw_rejects (n : nat) (executor e : value) (s s1 : state) :
  typeof executor = "function" →
  let this := length (heap s) in
  call_fn (S n) executor VUndefined [VCore (BoundResolve this); VCore (BoundReject this)]
    (allocate s) = (Throw e, s1) →
  ∃ o1 s2,
    heap s1 !! this = Some o1 ∧
    ZPromise_new (call_fn (S n)) executor s = (Return (VZPromise this), s2) ∧
    (PromiseState o1 = pending →
       heap s2 !! this = Some (mkZPromise rejected e (onFulfilledCallbacks o1)
                                 (onRejectedCallbacks o1))) ∧
    (PromiseState o1 ≠ pending → s2 = s1).
Proof.
  intros Hty this Hc.
  destruct (constructed_object _ _ _ _ _ _ _ Hc) as (o1 & H1 & Hwf). fold this in H1.
  rewrite ZPromise_new_allocate by done. fold this.
  unfold bind, try_catch. rewrite Hc.
  destruct (decide (PromiseState o1 = pending)) as [Hp|Hp].
  - destruct Hwf as [_ Hq]. rewrite (reject_pending _ _ _ _ _ H1 Hp Hq).
    eexists o1, _. split_and!; try done.
    intros _. by apply settle_store_this.
  - rewrite (reject_settled _ _ _ _ _ H1 Hp). exists o1, s1. by split_and!.
Qed.

Lemma executor_throw_rejects_witness :
  ∃ s2, ZPromise_new (call_fn 1) (fn [CThrow (EConst (VNum 8))]) initial
          = (Return (VZPromise 0), s2) ∧
        heap s2 !! 0 = Some (mkZPromise rejected (VNum 8) [] []).
Proof.
  destruct (executor_throw_rejects 0 (fn [CThrow (EConst (VNum 8))]) (VNum 8) initial _
              eq_refl eq_refl) as (o1 & s2 & H1 & Hnew & Hp & _).
  injection H1 as <-. exists s2. split; [exact Hnew | by apply Hp].
Defined.

(** X3: the executor runs inside the constructor: a foreign executor is
    entered, with the bound [resolve] and [reject] of the object under
    construction as its two arguments, before the constructor returns. *)
Theorem executor_runs_synchronously (n : nat) (tag : string) (body : list cmd)
    (thenP : property) (s : state) :
  let executor := VForeign tag (Some body) thenP in
  let this := length (heap s) in
  (trace s ++ [EvInvoke executor VUndefined
                 [VCore (BoundResolve this); VCore (BoundReject this)]])
    `prefix_of` trace (ZPromise_new (call_fn (S n)) executor s).2.
Proof.
  intros executor this. rewrite ZPromise_new_allocate by done.
  apply prefix_bind; [|intros; apply preserves_ret].
  apply prefix_try.
  - apply (invoke_logged n tag body thenP VUndefined _ (allocate s)).
  - intros e. apply ZPromise_reject_preserves. intros. apply call_fn_preserves.
Qed.

(** ** The reactions *)

Lemma FulfilledTask_callable n this p onFulfilled resolve reject s o :
  typeof onFulfilled = "function" → heap s !! this = Some o →
  call_fn (S n) (VCore (FulfilledTask this p onFulfilled resolve reject)) VUndefined [] s =
  try_catch
    (bind (call_fn n onFulfilled VUndefined [PromiseResult o])
       (fun resultX => resolveNextPromise (call_fn n) p resultX resolve reject))
    (fun error => call_fn n reject VUndefined [error] >> ret VUndefined) s.
Proof.
  intros Hty H. rewrite call_fn_S. unfold call_step, call_core.
  apply String.eqb_eq in Hty. rewrite Hty.
  unfold try_catch, get_this, bind. by rewrite H.
Qed.

Lemma RejectedTask_callable n this p onRejected resolve reject s o :
  typeof onRejected = "function" → heap s !! this = Some o →
  call_fn (S n) (VCore (RejectedTask this p onRejected resolve reject)) VUndefined [] s =
  try_catch
    (bind (call_fn n onRejected VUndefined [PromiseResult o])
       (fun reasonX => resolveNextPromise (call_fn n) p reasonX resolve reject))
    (fun error => call_fn n reject VUndefined [error] >> ret VUndefined) s.
Proof.
  intros Hty H. rewrite call_fn_S. unfold call_step, call_core.
  apply String.eqb_eq in Hty. rewrite Hty.
  unfold try_catch, get_this, bind. by rewrite H.
Qed.

Lemma reject_call_pending n p reason s o :
  heap s !! p = Some o → PromiseState o = pending → wf_obj o →
  (call_fn (S (S n)) (VCore (BoundReject p)) VUndefined [reason] >> ret VUndefined) s =
  (Return VUndefined, settle_store p rejected reason o (onRejectedCallbacks o) s).
Proof.
  intros H Hp [_ Hq]. unfold bind. rewrite call_BoundReject.
  by rewrite (reject_pending _ _ _ _ _ H Hp Hq).
Qed.

(** X4: a handler that throws.  Whichever of the two timers of a reaction
    runs, if the handler ([onFulfilled] or [onRejected]) throws [e] and the
    object [p] that [then] returned is still pending, the timer returns
    normally and [p] is rejected with [e] (lines 217-219 and 236-238). *)
Theorem handler_throw_rejects (n : nat) (this p : nat) (handler e : value)
    (s s1 : state) (o op : ZPromise) :
  typeof handler = "function" → heap s !! this = Some o →
  call_fn (S (S n)) handler VUndefined [PromiseResult o] s = (Throw e, s1) →
  heap s1 !! p = Some op → PromiseState op = pending → wf_obj op →
  let resolve := VCore (BoundResolve p) in
  let reject := VCore (BoundReject p) in
  let s2 := settle_store p rejected e op (onRejectedCallbacks op) s1 in
  call_fn (S (S (S n))) (VCore (FulfilledTask this p handler resolve reject)) VUndefined [] s
    = (Return VUndefined, s2) ∧
  call_fn (S (S (S n))) (VCore (RejectedTask this p handler resolve reject)) VUndefined [] s
    = (Return VUndefined, s2) ∧
  heap s2 !! p = Some (mkZPromise rejected e (onFulfilledCallbacks op)
                         (onRejectedCallbacks op)).
Proof.
  intros Hty H Hc Hp Hpend Hwf resolve reject s2. split_and!.
  - rewrite (FulfilledTask_callable _ _ _ _ _ _ _ _ Hty H).
    unfold try_catch, bind at 1. rewrite Hc. by apply reject_call_pending.
  - rewrite (RejectedTask_callable _ _ _ _ _ _ _ _ Hty H).
    unfold try_catch, bind at 1. rewrite Hc. by apply reject_call_pending.
  - by apply settle_store_this.
Qed.

Lemma handler_throw_rejects_witness :
  call_fn 3 (VCore (FulfilledTask 0 1 (fn [CThrow (EConst (VStr "boom"))])
                      (VCore (BoundResolve 1)) (VCore (BoundReject 1))))
    VUndefined [] reaction_store
  = (Return VUndefined,
     settle_store 1 rejected (VStr "boom") fresh []
       (set_trace (fun t => t ++ [EvInvoke (fn [CThrow (EConst (VStr "boom"))])
                                    VUndefined [VNum 1]]) reaction_store)).
Proof.
  refine (proj1 (handler_throw_rejects 0 0 1 (fn [CThrow (EConst (VStr "boom"))])
    (VStr "boom") reaction_store _ (mkZPromise fulfilled (VNum 1) [] []) fresh
    _ _ _ _ _ _)).
  - reflexivity.
  - reflexivity.
  - reflexivity.
  - reflexivity.
  - reflexivity.
  - split; constructor.
Defined.

(** X5: a handler that returns a plain value [v].  Whichever of the two
    timers runs, the object [p] that [then] returned, if still pending, is
    fulfilled with [v]: the value of [onFulfilled] is passed down the chain,
    and a rejection handled by [onRejected] turns into a fulfillment (lines
    208-209 and 231-232). *)
Theorem handler_value_fulfills (n : nat) (this p : nat) (handler v : value)
    (s s1 : state) (o op : ZPromise) :
  typeof handler = "function" → heap s !! this = Some o →
  call_fn (S (S n)) handler VUndefined [PromiseResult o] s = (Return v, s1) →
  plain v →
  heap s1 !! p = Some op → PromiseState op = pending → wf_obj op →
  let resolve := VCore (BoundResolve p) in
  let reject := VCore (BoundReject p) in
  let s2 := settle_store p fulfilled v op (onFulfilledCallbacks op) (read_store v s1) in
  call_fn (S (S (S n))) (VCore (FulfilledTask this p handler resolve reject)) VUndefined [] s
    = (Return VUndefined, s2) ∧
  call_fn (S (S (S n))) (VCore (RejectedTask this p handler resolve reject)) VUndefined [] s
    = (Return VUndefined, s2) ∧
  heap s2 !! p = Some (mkZPromise fulfilled v (onFulfilledCallbacks op)
                         (onRejectedCallbacks op)).
Proof.
  intros Hty H Hc Hpl Hp Hpend Hwf resolve reject s2.
  assert (Hr : resolveNextPromise (call_fn (S (S n))) p v resolve reject s1
               = (Return VUndefined, s2)) by by apply resolveNextPromise_plain.
  split_and!.
  - rewrite (FulfilledTask_callable _ _ _ _ _ _ _ _ Hty H).
    unfold try_catch, bind at 1. by rewrite Hc, Hr.
  - rewrite (RejectedTask_callable _ _ _ _ _ _ _ _ Hty H).
    unfold try_catch, bind at 1. by rewrite Hc, Hr.
  - apply settle_store_this. unfold read_store. by destruct (object_tag v).
Qed.

Lemma handler_value_fulfills_witness :
  call_fn 3 (VCore (RejectedTask 0 1 (fn [CReturn (EConst (VNum 5))])
                      (VCore (BoundResolve 1)) (VCore (BoundReject 1))))
    VUndefined [] reaction_store
  = (Return VUndefined,
     settle_store 1 fulfilled (VNum 5) fresh []
       (set_trace (fun t => t ++ [EvInvoke (fn [CReturn (EConst (VNum 5))])
                                    VUndefined [VNum 1]]) reaction_store)).
Proof.
  refine (proj1 (proj2 (handler_value_fulfills 0 0 1 (fn [CReturn (EConst (VNum 5))])
    (VNum 5) reaction_store _ (mkZPromise fulfilled (VNum 1) [] []) fresh
    _ _ _ _ _ _ _))).
  - reflexivity.
  - reflexivity.
  - reflexivity.
  - split; [done | by left].
  - reflexivity.
  - reflexivity.
  - split; constructor.
Defined.

(** X6: a handler that returns the very object [p] that its [then]
    returned.  The procedure throws the TypeError of line 38 and the timer
    catches it: [p], if still pending, is rejected with that TypeError. *)
Theorem handler_returning_own_promise_rejects (n : nat) (this p : nat) (handler : value)
    (s s1 : state) (o op : ZPromise) :
  typeof handler = "function" → heap s !! this = Some o →
  call_fn (S (S n)) handler VUndefined [PromiseResult o] s = (Return (VZPromise p), s1) →
  heap s1 !! p = Some op → PromiseState op = pending → wf_obj op →
  let resolve := VCore (BoundResolve p) in
  let reject := VCore (BoundReject p) in
  let s2 := settle_store p rejected cycle_error op (onRejectedCallbacks op) s1 in
  call_fn (S (S (S n))) (VCore (FulfilledTask this p handler resolve reject)) VUndefined [] s
    = (Return VUndefined, s2) ∧
  call_fn (S (S (S n))) (VCore (RejectedTask this p handler resolve reject)) VUndefined [] s
    = (Return VUndefined, s2) ∧
  heap s2 !! p = Some (mkZPromise rejected cycle_error (onFulfilledCallbacks op)
                         (onRejectedCallbacks op)).
Proof.
  intros Hty H Hc Hp Hpend Hwf resolve reject s2.
  assert (Hr : resolveNextPromise (call_fn (S (S n))) p (VZPromise p) resolve reject s1
               = (Throw cycle_error, s1)).
  { unfold resolveNextPromise. simpl. by rewrite Nat.eqb_refl. }
  split_and!.
  - rewrite (FulfilledTask_callable _ _ _ _ _ _ _ _ Hty H).
    unfold try_catch, bind at 1. rewrite Hc, Hr. by apply reject_call_pending.
  - rewrite (RejectedTask_callable _ _ _ _ _ _ _ _ Hty H).
    unfold try_catch, bind at 1. rewrite Hc, Hr. by apply reject_call_pending.
  - by apply settle_store_this.
Qed.

Lemma handler_returning_own_promise_rejects_witness :
  call_fn 3 (VCore (FulfilledTask 0 1 (fn [CReturn (EConst (VZPromise 1))])
                      (VCore (BoundResolve 1)) (VCore (BoundReject 1))))
    VUndefined [] reaction_store
  = (Return VUndefined,
     settle_store 1 rejected cycle_error fresh []
       (set_trace (fun t => t ++ [EvInvoke (fn [CReturn (EConst (VZPromise 1))])
                                    VUndefined [VNum 1]]) reaction_store)).
Proof.
  refine (proj1 (handler_returning_own_promise_rejects 0 0 1
    (fn [CReturn (EConst (VZPromise 1))]) reaction_store _
    (mkZPromise fulfilled (VNum 1) [] []) fresh _ _ _ _ _ _)).
  - reflexivity.
  - reflexivity.
  - reflexivity.
  - reflexivity.
  - reflexivity.
  - split; constructor.
Defined.

(** ** Pass-through of a value *)

(** The timer of a reaction whose [onFulfilled] is not a function fulfills
    the new object with the result of the receiver. *)
Lemma FulfilledTask_passes n this p onFulfilled s o op :
  typeof onFulfilled ≠ "function" →
  heap s !! this = Some o → heap s !! p = Some op →
  PromiseState op = pending → Forall is_queued (onFulfilledCallbacks op) →
  call_fn (S (S (S n)))
    (VCore (FulfilledTask this p onFulfilled (VCore (BoundResolve p)) (VCore (BoundReject p))))
    VUndefined [] s =
  (Return VUndefined,
   settle_store p fulfilled (PromiseResult o) op (onFulfilledCallbacks op) s).
Proof.
  intros Hty H Hp Hpend Hq. rewrite call_fn_S. unfold call_step, call_core.
  apply String.eqb_neq in Hty. rewrite Hty.
  unfold try_catch, get_this, bind. rewrite H. rewrite call_fn_S. simpl.
  by rewrite (resolve_pending _ _ _ _ _ Hp Hpend Hq).
Qed.

(** X7: [this.then(onFulfilled, onRejected)] with [onFulfilled] omitted or
    not a function (lines 210-215 and 253-254).  When [this] is already
    fulfilled with [v], the next turn of the timer queue fulfills the new
    object with the same [v], whatever [v] is (a ZPromise or a thenable is
    passed on as it is, the resolution procedure is not run); when [this] is
    pending and is fulfilled with [v] afterwards, the turn after that does.
    In general the timer of such a reaction, whenever it runs with the new
    object still pending, fulfills it with the receiver's result. *)
Theorem value_passes_through (n : nat) (this : nat) (onFulfilled onRejected v : value)
    (s : state) (o : ZPromise) :
  typeof onFulfilled ≠ "function" →
  heap s !! this = Some o → timers s = [] →
  let p := length (heap s) in
  (PromiseState o = fulfilled → PromiseResult o = v →
     ∃ s1 s2,
       ZPromise_then (call_fn (S n)) this onFulfilled onRejected s
         = (Return (VZPromise p), s1) ∧
       turn (S (S (S n))) s1 = Some s2 ∧
       heap s2 !! p = Some (mkZPromise fulfilled v [] []) ∧
       trace s2 = trace s) ∧
  (PromiseState o = pending → onFulfilledCallbacks o = [] →
     ∃ s1 s2 s3,
       ZPromise_then (call_fn (S n)) this onFulfilled onRejected s
         = (Return (VZPromise p), s1) ∧
       call_fn (S (S n)) (VCore (BoundResolve this)) VUndefined [v] s1
         = (Return VUndefined, s2) ∧
       turn (S (S (S n))) s2 = Some s3 ∧
       heap s3 !! p = Some (mkZPromise fulfilled v [] []) ∧
       trace s3 = trace s) ∧
  (∀ s' o' op, heap s' !! this = Some o' → heap s' !! p = Some op →
     PromiseState op = pending → wf_obj op →
     ∃ s'', call_fn (S (S (S n)))
              (VCore (FulfilledTask this p onFulfilled (VCore (BoundResolve p))
                        (VCore (BoundReject p)))) VUndefined [] s'
            = (Return VUndefined, s'') ∧
       heap s'' !! p = Some (mkZPromise fulfilled (PromiseResult o')
                               (onFulfilledCallbacks op) (onRejectedCallbacks op))).
Proof.
  intros Hty H Ht p.
  assert (Hlt : this < p) by by eapply lookup_lt_Some.
  assert (Hfresh : ∀ h : list ZPromise, length h = p →
            (h ++ [fresh]) !! p = Some fresh).
  { intros h <-. by rewrite lookup_app_r, Nat.sub_diag. }
  split_and!.
  - intros Hs HE. eexists _, _. split; [by apply ZPromise_then_spec|].
    unfold then_store. rewrite Hs. fold p. split.
    + eapply turn_return; [simpl; by rewrite Ht|].
      apply FulfilledTask_passes with (op := fresh); simpl;
        [done | by apply lookup_app_l_Some | by apply Hfresh | done | constructor].
    + simpl. split; [|done]. rewrite HE.
      apply list_lookup_insert_eq. rewrite length_app. simpl. lia.
  - intros Hs Hq. eexists _, _, _. split; [by apply ZPromise_then_spec|].
    pose proof (then_store_pending this onFulfilled onRejected o s H Hs) as H1.
    rewrite Hq in H1. fold p in H1. simpl in H1.
    rewrite call_fn_S. simpl call_step.
    split; [eapply resolve_pending; [exact H1 | done | by repeat constructor]|].
    split.
    + eapply turn_return.
      { simpl timers. unfold then_store. rewrite Hs. simpl timers. rewrite Ht. done. }
      apply FulfilledTask_passes with (op := fresh); simpl;
        [done | | | done | constructor].
      * apply list_lookup_insert_eq. unfold then_store. rewrite Hs. simpl.
        rewrite length_insert, length_app. simpl. lia.
      * rewrite list_lookup_insert_ne by lia. unfold then_store. rewrite Hs. simpl.
        rewrite list_lookup_insert_ne by lia. by apply Hfresh.
    + simpl. split.
      * apply list_lookup_insert_eq. rewrite length_insert. unfold then_store.
        rewrite Hs. simpl. rewrite length_insert, length_app. simpl. lia.
      * unfold then_store. by rewrite Hs.
  - intros s' o' op H' Hp' Hpend [Hq _]. eexists.
    split; [by eapply FulfilledTask_passes|]. by apply settle_store_this.
Qed.

Lemma value_passes_through_witness :
  ∃ s1 s2,
    ZPromise_then (call_fn 1) 0 VUndefined (log_handler 1) settled_store
      = (Return (VZPromise 1), s1) ∧
    turn 3 s1 = Some s2 ∧
    heap s2 !! 1 = Some (mkZPromise fulfilled (VNum 1) [] []) ∧
    trace s2 = [].
Proof.
  refine (proj1 (value_passes_through 0 0 VUndefined (log_handler 1) (VNum 1)
    settled_store (mkZPromise fulfilled (VNum 1) [] []) _ _ _) _ _).
  - simpl. discriminate.
  - reflexivity.
  - reflexivity.
  - reflexivity.
  - reflexivity.
Defined.

(** ** A [then] property that throws *)

(** X8: reading [x.then] throws [e] (lines 54-58).  The target, still
    pending after the getter ran, is rejected with [e]; the procedure then
    goes on with [thenFunc] undefined and calls [resolve(x)] (line 103),
    which changes nothing, and returns normally. *)
Theorem then_getter_throw_rejects (n : nat) (p : nat) (tag : string)
    (call : option (list cmd)) (body : list cmd) (e : value) (s s1 : state)
    (o : ZPromise) :
  let x := VForeign tag call (PGetter body) in
  object_tag x = true →
  call_fn (S (S n)) (fn body) x [] (set_trace (fun t => t ++ [EvGetThen x]) s)
    = (Throw e, s1) →
  heap s1 !! p = Some o → PromiseState o = pending → wf_obj o →
  let s2 := settle_store p rejected e o (onRejectedCallbacks o) s1 in
  resolveNextPromise (call_fn (S (S n))) p x (VCore (BoundResolve p))
    (VCore (BoundReject p)) s = (Return VUndefined, s2) ∧
  heap s2 !! p = Some (mkZPromise rejected e (onFulfilledCallbacks o)
                         (onRejectedCallbacks o)).
Proof.
  intros x Ht Hc Hp Hpend Hwf s2.
  assert (H2 : heap s2 !! p = Some (mkZPromise rejected e (onFulfilledCallbacks o)
                                      (onRejectedCallbacks o)))
    by by apply settle_store_this.
  split; [|exact H2].
  rewrite resolveNextPromise_tagged by done.
  assert (Hread : get_then (call_fn (S (S n))) x s = (Throw e, s1)).
  { unfold get_then, bind, log. simpl. unfold fn in Hc. by rewrite Hc. }
  unfold bind at 1, try_catch. rewrite Hread.
  rewrite (reject_call_pending _ _ _ _ _ Hp Hpend Hwf). fold s2.
  unfold after_read. simpl. unfold bind. rewrite call_BoundResolve.
  by rewrite (resolve_settled _ _ _ _ _ H2).
Qed.

Lemma then_getter_throw_rejects_witness :
  resolveNextPromise (call_fn 2) 0
    (VForeign "Object" None (PGetter [CThrow (EConst (VNum 3))]))
    (VCore (BoundResolve 0)) (VCore (BoundReject 0)) pending_store
  = (Return VUndefined,
     settle_store 0 rejected (VNum 3) fresh []
       (set_trace (fun t => t ++ [EvInvoke (fn [CThrow (EConst (VNum 3))])
                    (VForeign "Object" None (PGetter [CThrow (EConst (VNum 3))])) []])
          (set_trace (fun t => t ++ [EvGetThen
                    (VForeign "Object" None (PGetter [CThrow (EConst (VNum 3))]))])
             pending_store))).
Proof.
  refine (proj1 (then_getter_throw_rejects 0 0 "Object" None [CThrow (EConst (VNum 3))]
    (VNum 3) pending_store _ fresh _ _ _ _ _)).
  - reflexivity.
  - reflexivity.
  - reflexivity.
  - reflexivity.
  - split; constructor.
Defined.

(** ** [resolve] stores its argument *)

(** X9: the [resolve] that the constructor hands to the executor never runs
    the resolution procedure (lines 162-170): it fulfills a pending object
    with its argument as it is, be it a thenable, another ZPromise or the
    object itself, reads no [then] and enters no foreign code; a reaction
    registered afterwards is entered, one turn later, with that very value
    as argument. *)
Theorem resolve_stores_its_argument (n : nat) (this : nat) (data : value)
    (tag : string) (body : list cmd) (thenP : property) (onRejected : value)
    (s : state) (o : ZPromise) :
  heap s !! this = Some o → PromiseState o = pending →
  onFulfilledCallbacks o = [] → timers s = [] →
  let onFulfilled := VForeign tag (Some body) thenP in
  ∃ s1 s2 s3,
    call_fn (S (S n)) (VCore (BoundResolve this)) VUndefined [data] s
      = (Return VUndefined, s1) ∧
    heap s1 !! this = Some (mkZPromise fulfilled data [] (onRejectedCallbacks o)) ∧
    trace s1 = trace s ∧ timers s1 = [] ∧
    ZPromise_then (call_fn (S n)) this onFulfilled onRejected s1
      = (Return (VZPromise (length (heap s))), s2) ∧
    turn (S (S n)) s2 = Some s3 ∧
    (trace s ++ [EvInvoke onFulfilled VUndefined [data]]) `prefix_of` trace s3.
Proof.
  intros H Hp Hq Ht onFulfilled.
  set (o1 := mkZPromise fulfilled data [] (onRejectedCallbacks o)).
  set (s1 := settle_store this fulfilled data o [] s).
  assert (H1 : heap s1 !! this = Some o1).
  { unfold s1, o1. rewrite <- Hq. by apply settle_store_this. }
  exists s1, (then_store this onFulfilled onRejected o1 s1).
  assert (Hturn : ∃ s3, turn (S (S n)) (then_store this onFulfilled onRejected o1 s1) = Some s3 ∧
            (trace s ++ [EvInvoke onFulfilled VUndefined [data]]) `prefix_of` trace s3).
  { eapply turn_runs.
    - unfold then_store. simpl. by rewrite Ht.
    - match goal with |- _ `prefix_of` trace (call_fn _ _ _ _ ?X).2 =>
        apply (FulfilledTask_invokes n this (length (heap s1)) tag body thenP _ _ X o1) end.
      simpl. apply lookup_app_l_Some. exact H1. }
  destruct Hturn as (s3 & Hturn & Htr). exists s3. split_and!; try done.
  - rewrite call_BoundResolve. unfold s1. rewrite <- Hq.
    apply resolve_pending; [done | done | rewrite Hq; constructor].
  - unfold s1. simpl. by rewrite Ht.
  - rewrite (ZPromise_then_spec _ _ _ _ _ _ H1). unfold s1. simpl.
    by rewrite length_insert.
Qed.

Lemma resolve_stores_its_argument_witness :
  ∃ s1 s2 s3,
    call_fn 2 (VCore (BoundResolve 0)) VUndefined [VZPromise 0] pending_store
      = (Return VUndefined, s1) ∧
    heap s1 !! 0 = Some (mkZPromise fulfilled (VZPromise 0) [] []) ∧
    trace s1 = [] ∧ timers s1 = [] ∧
    ZPromise_then (call_fn 1) 0 (log_handler 1) VUndefined s1
      = (Return (VZPromise 1), s2) ∧
    turn 2 s2 = Some s3 ∧
    ([] ++ [EvInvoke (log_handler 1) VUndefined [VZPromise 0]]) `prefix_of` trace s3.
Proof.
  refine (resolve_stores_its_argument 0 0 (VZPromise 0) "Function" [CLog 1] PAbsent
            VUndefined pending_store fresh _ _ _ _).
  - reflexivity.
  - reflexivity.
  - reflexivity.
  - reflexivity.
Defined.

(** ** The adapter of the compliance tests *)

(** X10: [deferred()] of src/test/adapter.js.  It returns with a new
    pending object in [result.promise] and, in [result.resolve] and
    [result.reject], the bound [resolve] and [reject] of that very object;
    no timer is scheduled.  Calling [result.resolve(v)] then fulfills the
    object with [v], and calling [result.reject(e)] rejects it with [e]. *)
Theorem deferred_hands_out_the_settlers (n : nat) (r : nat) (this : value)
    (args : list value) (s : state) :
  let p := length (heap s) in
  ∃ s',
    run_cmds (call_fn (S n)) (deferred r) this args s = (Return VUndefined, s') ∧
    vars s' !! r = Some (VZPromise p) ∧
    vars s' !! S r = Some (VCore (BoundResolve p)) ∧
    vars s' !! S (S r) = Some (VCore (BoundReject p)) ∧
    heap s' = heap s ++ [fresh] ∧ timers s' = timers s ∧
    (∀ v, ∃ s'', call_fn (S (S n)) (VCore (BoundResolve p)) VUndefined [v] s'
                   = (Return VUndefined, s'') ∧
                 heap s'' !! p = Some (mkZPromise fulfilled v [] []) ∧
                 timers s'' = timers s) ∧
    (∀ e, ∃ s'', call_fn (S (S n)) (VCore (BoundReject p)) VUndefined [e] s'
                   = (Return VUndefined, s'') ∧
                 heap s'' !! p = Some (mkZPromise rejected e [] []) ∧
                 timers s'' = timers s).
Proof.
  intros p. eexists. split.
  { unfold deferred, adapter_executor, fn. simpl. unfold bind.
    rewrite ZPromise_new_allocate by done. unfold bind, try_catch.
    rewrite call_fn_S. simpl. reflexivity. }
  assert (Hp : (heap s ++ [fresh]) !! p = Some fresh)
    by (unfold p; by rewrite lookup_app_r, Nat.sub_diag).
  simpl. fold p. split_and!.
  - by rewrite lookup_insert_eq.
  - rewrite lookup_insert_ne by lia. rewrite lookup_insert_ne by lia.
    by rewrite lookup_insert_eq.
  - rewrite lookup_insert_ne by lia. by rewrite lookup_insert_eq.
  - done.
  - done.
  - intros v. eexists. rewrite call_BoundResolve. split.
    + apply resolve_pending with (o := fresh); [exact Hp | done | constructor].
    + simpl. split; [|by rewrite app_nil_r].
      apply list_lookup_insert_eq. rewrite length_app. simpl. lia.
  - intros e. eexists. rewrite call_BoundReject. split.
    + apply reject_pending with (o := fresh); [exact Hp | done | constructor].
    + simpl. split; [|by rewrite app_nil_r].
      apply list_lookup_insert_eq. rewrite length_app. simpl. lia.
Qed.

(** ** Order of the reactions of a settled object *)

Lemma then_store_settled_timers this f g o s :
  PromiseState o ≠ pending →
  timers (then_store this f g o s) =
  timers s ++ [reaction_timer (PromiseState o) this (length (heap s)) f g].
Proof. intros Hs. unfold then_store, reaction_timer. by destruct (PromiseState o). Qed.

(** X11: two reactions registered in the order r1, r2 on an object that is
    already settled (lines 196-240), with anything called in between and
    afterwards: their timers are in the timer queue in that order, and the
    turn that runs the timer of r1 comes before the turn that runs the timer
    of r2. *)
Theorem settled_reactions_fire_in_order (n fuel : nat) (this : nat) (f1 g1 f2 g2 : value)
    (s0 s1 s2 s3 s4 : state) (r1 r2 : outcome) (o : ZPromise) :
  heap s0 !! this = Some o → PromiseState o ≠ pending →
  ZPromise_then (call_fn (S n)) this f1 g1 s0 = (r1, s1) → grows s1 s2 →
  ZPromise_then (call_fn (S n)) this f2 g2 s2 = (r2, s3) → grows s3 s4 →
  ∃ k1 k2, k1 < k2 ∧
    head (timers (run_loop k1 fuel s4)) =
      Some (reaction_timer (PromiseState o) this (length (heap s0)) f1 g1) ∧
    head (timers (run_loop k2 fuel s4)) =
      Some (reaction_timer (PromiseState o) this (length (heap s2)) f2 g2).
Proof.
  intros H0 Hs Ht1 [E12 [k Hk]] Ht2 [E34 [k' Hk']].
  rewrite (ZPromise_then_spec _ _ _ _ _ _ H0) in Ht1. injection Ht1 as _ <-.
  assert (H2 : heap s2 !! this = Some o).
  { eapply evolves_settled; [exact E12| |exact Hs].
    unfold then_store. destruct (PromiseState o) eqn:E; [done| |];
      simpl; by apply lookup_app_l_Some. }
  rewrite (ZPromise_then_spec _ _ _ _ _ _ H2) in Ht2. injection Ht2 as _ <-.
  rewrite then_store_settled_timers in Hk by done.
  rewrite then_store_settled_timers in Hk' by done.
  apply (fired_in_order fuel (timers s0) k k').
  rewrite Hk', Hk. by rewrite <- !app_assoc.
Qed.

Lemma settled_reactions_fire_in_order_witness :
  ∃ k1 k2, k1 < k2 ∧
    head (timers (run_loop k1 4 settled_twice)) =
      Some (reaction_timer fulfilled 0 1 (log_handler 1) (log_handler 2)) ∧
    head (timers (run_loop k2 4 settled_twice)) =
      Some (reaction_timer fulfilled 0 2 (log_handler 3) (log_handler 4)).
Proof.
  refine (settled_reactions_fire_in_order 0 4 0
    (log_handler 1) (log_handler 2) (log_handler 3) (log_handler 4)
    settled_store settled_once settled_once settled_twice settled_twice
    (Return (VZPromise 1)) (Return (VZPromise 2))
    (mkZPromise fulfilled (VNum 1) [] []) _ _ _ _ _ _).
  - reflexivity.
  - simpl. discriminate.
  - reflexivity.
  - apply grows_refl.
  - reflexivity.
  - apply grows_refl.
Defined.

(** X12: a reaction r1 registered while the object is pending and a
    reaction r2 registered after it has been settled, in the same turn as
    the settlement: the timer that the drain schedules for r1 is ahead of the
    timer of r2, so the turn that runs r1 comes before the turn that runs
    r2. *)
Theorem reactions_fire_in_order_across_settlement (n fuel : nat) (this : nat)
    (f1 g1 f2 g2 data : value) (s0 s1 s2 s3 s4 s5 s6 : state) (r1 r2 : outcome)
    (o0 o2 : ZPromise) :
  heap s0 !! this = Some o0 → PromiseState o0 = pending → wf_obj o0 →
  ZPromise_then (call_fn (S n)) this f1 g1 s0 = (r1, s1) → evolves s1 s2 →
  heap s2 !! this = Some o2 → PromiseState o2 = pending →
  call_fn (S (S n)) (VCore (BoundResolve this)) VUndefined [data] s2
    = (Return VUndefined, s3) →
  grows s3 s4 →
  ZPromise_then (call_fn (S n)) this f2 g2 s4 = (r2, s5) → grows s5 s6 →
  ∃ k1 k2, k1 < k2 ∧
    head (timers (run_loop k1 fuel s6)) =
      Some (reaction_timer fulfilled this (length (heap s0)) f1 g1) ∧
    head (timers (run_loop k2 fuel s6)) =
      Some (reaction_timer fulfilled this (length (heap s4)) f2 g2).
Proof.
  intros H0 Hp0 Hwf0 Ht1 E12 H2 Hp2 Hres [E34 [k Hk]] Ht2 [E56 [k' Hk']].
  rewrite (ZPromise_then_spec _ _ _ _ _ _ H0) in Ht1. injection Ht1 as _ <-.
  pose proof (then_store_pending this f1 g1 o0 s0 H0 Hp0) as H1.
  destruct (ev_old _ _ E12 _ _ H1) as (o2' & H2' & Ho12).
  rewrite H2 in H2'. injection H2' as <-.
  assert (Hwf2 : wf_obj o2).
  { eapply obj_evolves_wf; [exact Ho12|]. destruct Hwf0 as [W1 W2].
    split; simpl; apply Forall_app; split; auto; by repeat constructor. }
  destruct Ho12 as (_ & (e & He & _) & _). simpl in He.
  rewrite call_BoundResolve in Hres.
  rewrite (resolve_pending _ _ _ _ _ H2 Hp2 (proj1 Hwf2)) in Hres. injection Hres as <-.
  set (o3 := mkZPromise fulfilled data (onFulfilledCallbacks o2) (onRejectedCallbacks o2)).
  assert (H4 : heap s4 !! this = Some o3).
  { eapply evolves_settled; [exact E34 | by apply settle_store_this | done]. }
  rewrite (ZPromise_then_spec _ _ _ _ _ _ H4) in Ht2. injection Ht2 as _ <-.
  rewrite then_store_settled_timers in Hk' by done. simpl in Hk, Hk'.
  apply (fired_in_order fuel (timers s2 ++ map scheduled (onFulfilledCallbacks o0))
           (map scheduled e ++ k) k').
  rewrite Hk', Hk, He. rewrite !map_app. simpl. by rewrite <- !app_assoc.
Qed.

Lemma reactions_fire_in_order_across_settlement_witness :
  ∃ k1 k2, k1 < k2 ∧
    head (timers (run_loop k1 4 registered_later)) =
      Some (reaction_timer fulfilled 0 1 (log_handler 1) (log_handler 2)) ∧
    head (timers (run_loop k2 4 registered_later)) =
      Some (reaction_timer fulfilled 0 2 (log_handler 3) (log_handler 4)).
Proof.
  refine (reactions_fire_in_order_across_settlement 0 4 0
    (log_handler 1) (log_handler 2) (log_handler 3) (log_handler 4) (VNum 9)
    pending_store once_registered once_registered fulfilled_later fulfilled_later
    registered_later registered_later
    (Return (VZPromise 1)) (Return (VZPromise 2)) fresh
    (default fresh (heap once_registered !! 0))
    _ _ _ _ _ _ _ _ _ _ _).
  - reflexivity.
  - reflexivity.
  - split; constructor.
  - reflexivity.
  - apply evolves_refl.
  - reflexivity.
  - reflexivity.
  - reflexivity.
  - apply grows_refl.
  - reflexivity.
  - apply grows_refl.
Defined.

(** ** What [then] and the adoption of a ZPromise leave alone *)

(** X13: [then] returns a new object (line 195): its address was free, it
    is pending with no result and no reactions when [then] returns, every
    other object except the receiver is as it was, and the receiver keeps
    its state and its result. *)
Theorem then_returns_a_new_pending_object (n : nat) (this : nat)
    (onFulfilled onRejected : value) (s : state) (o : ZPromise) :
  heap s !! this = Some o →
  let p := length (heap s) in
  ∃ s' o',
    ZPromise_then (call_fn (S n)) this onFulfilled onRejected s
      = (Return (VZPromise p), s') ∧
    heap s !! p = None ∧ p ≠ this ∧
    heap s' !! p = Some fresh ∧
    (∀ a oa, a ≠ this → heap s !! a = Some oa → heap s' !! a = Some oa) ∧
    heap s' !! this = Some o' ∧
    PromiseState o' = PromiseState o ∧ PromiseResult o' = PromiseResult o ∧
    cells s' = cells s ∧ vars s' = vars s.
Proof.
  intros H p. pose proof (lookup_lt_Some _ _ _ H) as Hlt. fold p in Hlt.
  assert (Hq : (heap s ++ [fresh]) !! p = Some fresh)
    by (unfold p; by rewrite lookup_app_r, Nat.sub_diag).
  rewrite (ZPromise_then_spec _ _ _ _ _ _ H). unfold then_store. fold p.
  destruct (PromiseState o) eqn:Hs.
  - eexists _, _. split; [done|]. simpl. split_and!.
    + by apply lookup_ge_None.
    + lia.
    + rewrite list_lookup_insert_ne by lia. exact Hq.
    + intros a oa Ha Hoa. rewrite list_lookup_insert_ne by done.
      by apply lookup_app_l_Some.
    + apply list_lookup_insert_eq. rewrite length_app. lia.
    + done.
    + done.
    + done.
    + done.
  - eexists _, o. split; [done|]. simpl. split_and!; try done.
    + by apply lookup_ge_None.
    + lia.
    + intros a oa Ha Hoa. by apply lookup_app_l_Some.
    + by apply lookup_app_l_Some.
  - eexists _, o. split; [done|]. simpl. split_and!; try done.
    + by apply lookup_ge_None.
    + lia.
    + intros a oa Ha Hoa. by apply lookup_app_l_Some.
    + by apply lookup_app_l_Some.
Qed.

Lemma then_returns_a_new_pending_object_witness :
  ∃ s' o',
    ZPromise_then (call_fn 1) 0 VUndefined VUndefined settled_store
      = (Return (VZPromise 1), s') ∧
    heap settled_store !! 1 = None ∧ 1 ≠ 0 ∧
    heap s' !! 1 = Some fresh ∧
    (∀ a oa, a ≠ 0 → heap settled_store !! a = Some oa → heap s' !! a = Some oa) ∧
    heap s' !! 0 = Some o' ∧
    PromiseState o' = fulfilled ∧ PromiseResult o' = VNum 1 ∧
    cells s' = [] ∧ vars s' = ∅.
Proof.
  exact (then_returns_a_new_pending_object 0 0 VUndefined VUndefined settled_store
           (mkZPromise fulfilled (VNum 1) [] []) eq_refl).
Defined.

(** X14: the procedure never settles its target synchronously when the
    candidate is another ZPromise [q] (line 46): it returns normally with the
    target object exactly as it was, even when [q] is already fulfilled or
    rejected, having entered no foreign code; all it does is call
    [q.then]. *)
Theorem adoption_is_asynchronous (n : nat) (p q : nat) (s : state) (op oq : ZPromise) :
  q ≠ p → heap s !! p = Some op → heap s !! q = Some oq →
  ∃ s',
    resolveNextPromise (call_fn (S n)) p (VZPromise q)
      (VCore (BoundResolve p)) (VCore (BoundReject p)) s = (Return VUndefined, s') ∧
    s' = then_store q (unwrap p) (VCore (BoundReject p)) oq s ∧
    heap s' !! p = Some op ∧ trace s' = trace s ∧
    (PromiseState oq ≠ pending →
       timers s' = timers s ++
         [reaction_timer (PromiseState oq) q (length (heap s)) (unwrap p)
            (VCore (BoundReject p))]).
Proof.
  intros Hne Hp Hq. eexists. split; [by apply adopt_start|]. split; [done|].
  split_and!.
  - unfold then_store. pose proof (lookup_lt_Some _ _ _ Hp).
    destruct (PromiseState oq); simpl.
    + rewrite list_lookup_insert_ne by done. by apply lookup_app_l_Some.
    + by apply lookup_app_l_Some.
    + by apply lookup_app_l_Some.
  - unfold then_store. by destruct (PromiseState oq).
  - apply then_store_settled_timers.
Qed.

Lemma adoption_is_asynchronous_witness :
  ∃ s',
    resolveNextPromise (call_fn 1) 1 (VZPromise 0)
      (VCore (BoundResolve 1)) (VCore (BoundReject 1)) reaction_store
      = (Return VUndefined, s') ∧
    s' = then_store 0 (unwrap 1) (VCore (BoundReject 1))
           (mkZPromise fulfilled (VNum 1) [] []) reaction_store ∧
    heap s' !! 1 = Some fresh ∧ trace s' = [] ∧
    (fulfilled ≠ pending →
       timers s' = [] ++
         [reaction_timer fulfilled 0 2 (unwrap 1) (VCore (BoundReject 1))]).
Proof.
  refine (adoption_is_asynchronous 0 1 0 reaction_store fresh
            (mkZPromise fulfilled (VNum 1) [] []) _ _ _).
  - discriminate.
  - reflexivity.
  - reflexivity.
Defined.

(** ** A chain of two [then] *)

(** X15: [a.then(f).then(g)] on a fulfilled [a], as in the usage example of
    the README.  Both calls return at once; the first turn of the timer
    queue enters [f] with the result of [a]; when [f] returns a plain value
    [v1], having left alone the object [b] of the first [then], [b] is
    fulfilled with [v1] in that same turn, and the next turn enters [g] with
    [v1]. *)
Theorem then_chain_passes_the_value (n : nat) (a : nat) (f v1 : value)
    (tag : string) (body : list cmd) (thenP : property)
    (s sf : state) (oa : ZPromise) :
  heap s !! a = Some oa → PromiseState oa = fulfilled → timers s = [] →
  typeof f = "function" →
  let g := VForeign tag (Some body) thenP in
  let b := length (heap s) in
  let s1 := (ZPromise_then (call_fn (S n)) a f VUndefined s).2 in
  let s2 := (ZPromise_then (call_fn (S n)) b g VUndefined s1).2 in
  call_fn (S (S n)) f VUndefined [PromiseResult oa] (set_timers (fun _ => []) s2)
    = (Return v1, sf) →
  plain v1 → heap sf !! b = heap s2 !! b → timers sf = [] →
  ∃ s3 s4,
    turn (S (S (S n))) s2 = Some s3 ∧
    state_of s3 b = Some fulfilled ∧ result_of s3 b = Some v1 ∧
    turn (S (S (S n))) s3 = Some s4 ∧
    (trace s3 ++ [EvInvoke g VUndefined [v1]]) `prefix_of` trace s4.
Proof.
  intros Ha Hs Ht Hty g b s1 s2 Hc Hpl Hb Ht1.
  assert (Hlt : a < b) by by eapply lookup_lt_Some.
  assert (E1 : s1 = then_store a f VUndefined oa s)
    by (unfold s1; by rewrite (ZPromise_then_spec _ _ _ _ _ _ Ha)).
  assert (Hb1 : heap s1 !! b = Some fresh).
  { rewrite E1. unfold then_store. rewrite Hs. simpl.
    unfold b. by rewrite lookup_app_r, Nat.sub_diag. }
  assert (Hlen1 : length (heap s1) = S b).
  { rewrite E1. unfold then_store. rewrite Hs. simpl. rewrite length_app. simpl. lia. }
  assert (E2 : s2 = then_store b g VUndefined fresh s1)
    by (unfold s2; by rewrite (ZPromise_then_spec _ _ _ _ _ _ Hb1)).
  set (ob := mkZPromise pending VNull
               [VCore (QueuedFulfilled b (S b) g (VCore (BoundResolve (S b)))
                         (VCore (BoundReject (S b))))]
               [VCore (QueuedRejected b (S b) VUndefined (VCore (BoundResolve (S b)))
                         (VCore (BoundReject (S b))))]).
  assert (Hb2 : heap s2 !! b = Some ob).
  { rewrite E2. pose proof (then_store_pending b g VUndefined fresh s1 Hb1 eq_refl) as Hp.
    rewrite Hlen1 in Hp. exact Hp. }
  assert (Ha2 : heap s2 !! a = Some oa).
  { rewrite E2. unfold then_store. simpl.
    rewrite list_lookup_insert_ne by lia. apply lookup_app_l_Some.
    rewrite E1. unfold then_store. rewrite Hs. simpl. by apply lookup_app_l_Some. }
  assert (Ht2 : timers s2 = [VCore (FulfilledTask a b f (VCore (BoundResolve b))
                                      (VCore (BoundReject b)))]).
  { rewrite E2. unfold then_store. simpl. rewrite E1. unfold then_store.
    rewrite Hs. simpl. by rewrite Ht. }
  rewrite Hb2 in Hb.
  set (s3 := settle_store b fulfilled v1 ob (onFulfilledCallbacks ob) (read_store v1 sf)).
  assert (Hbr : heap (read_store v1 sf) !! b = Some ob)
    by (unfold read_store; by destruct (object_tag v1)).
  assert (H3 : heap s3 !! b = Some (mkZPromise fulfilled v1 (onFulfilledCallbacks ob)
                                      (onRejectedCallbacks ob)))
    by by apply settle_store_this.
  assert (Hturn : turn (S (S (S n))) s2 = Some s3).
  { eapply turn_return; [exact Ht2|].
    rewrite (FulfilledTask_callable _ _ _ _ _ _ (set_timers (fun _ => []) s2) _ Hty Ha2).
    unfold try_catch, bind at 1. rewrite Hc.
    rewrite (resolveNextPromise_plain n b v1 sf ob); [done | done | done | done |].
    split; by repeat constructor. }
  destruct (turn_runs (S (S (S n))) s3
              (VCore (FulfilledTask b (S b) g (VCore (BoundResolve (S b)))
                        (VCore (BoundReject (S b))))) []
              (trace s3 ++ [EvInvoke g VUndefined [v1]])) as (s4 & Hturn4 & Htr).
  { unfold s3. simpl. unfold read_store. destruct (object_tag v1); simpl; by rewrite Ht1. }
  { match goal with |- _ `prefix_of` trace (call_fn _ _ _ _ ?X).2 =>
      apply (FulfilledTask_invokes (S n) b (S b) tag body thenP _ _ X
               (mkZPromise fulfilled v1 (onFulfilledCallbacks ob) (onRejectedCallbacks ob)))
    end. exact H3. }
  exists s3, s4. unfold state_of, result_of. rewrite H3. by split_and!.
Qed.

Lemma then_chain_passes_the_value_witness :
  ∃ s3 s4,
    turn 3 (ZPromise_then (call_fn 1) 1 (log_handler 7) VUndefined
              (ZPromise_then (call_fn 1) 0 (fn [CReturn (EConst (VNum 5))]) VUndefined
                 settled_store).2).2 = Some s3 ∧
    state_of s3 1 = Some fulfilled ∧ result_of s3 1 = Some (VNum 5) ∧
    turn 3 s3 = Some s4 ∧
    (trace s3 ++ [EvInvoke (log_handler 7) VUndefined [VNum 5]]) `prefix_of` trace s4.
Proof.
  refine (then_chain_passes_the_value 0 0 (fn [CReturn (EConst (VNum 5))]) (VNum 5)
    "Function" [CLog 7] PAbsent settled_store _ (mkZPromise fulfilled (VNum 1) [] [])
    _ _ _ _ _ _ _ _).
  - reflexivity.
  - reflexivity.
  - reflexivity.
  - reflexivity.
  - reflexivity.
  - split; [done | by left].
  - reflexivity.
  - reflexivity.
Defined.

(** ** Two tests of callability *)

Lemma string_app_inj_r (a b t : string) : a +:+ t = b +:+ t → a = b.
Proof.
  assert (Hlen : ∀ x y : string,
            String.length (x +:+ y) = String.length x + String.length y).
  { intros x y. induction x as [|c x IH]; simpl; [done | by rewrite IH]. }
  revert b. induction a as [|c a IH]; intros [|c' b] H.
  - done.
  - apply (f_equal String.length) in H. rewrite !Hlen in H. simpl in H. lia.
  - apply (f_equal String.length) in H. rewrite !Hlen in H. simpl in H. lia.
  - change (String c (a +:+ t) = String c' (b +:+ t)) in H.
    injection H as -> H. f_equal. by apply IH.
Qed.

Lemma getType_foreign_function tag call thenP :
  getType (VForeign tag call thenP) = "[object Function]" ↔ tag = "Function".
Proof.
  split; [|by intros ->].
  assert (Hcons : ∀ c (a b : string), String c a +:+ b = String c (a +:+ b)) by done.
  assert (Hnil : ∀ a : string, "" +:+ a = a) by done.
  intros H. unfold getType in H. rewrite !Hcons, Hnil in H. injection H as H.
  exact (string_app_inj_r tag "Function" "]" H).
Qed.

(** X16: the handlers of [then] are tested with [typeof] (lines 203 and
    230) and the [then] of a candidate with [getType] (line 60).  So a
    callable value [f] whose tag is not "Function" (an async function, a
    generator function) is entered when it is the [onFulfilled] handler of a
    reaction, but is not called when it is the [then] of an object [x]: the
    target is then fulfilled with [x] itself. *)
Theorem callable_handler_but_not_callable_then (n : nat) (this p : nat) (tag : string)
    (body : list cmd) (thenP : property) (xtag : string) (xcall : option (list cmd))
    (s : state) (o op : ZPromise) :
  tag ≠ "Function" →
  let f := VForeign tag (Some body) thenP in
  let x := VForeign xtag xcall (PData f) in
  object_tag x = true →
  heap s !! this = Some o →
  heap s !! p = Some op → PromiseState op = pending → wf_obj op →
  let resolve := VCore (BoundResolve p) in
  let reject := VCore (BoundReject p) in
  (trace s ++ [EvInvoke f VUndefined [PromiseResult o]]) `prefix_of`
    trace (call_fn (S (S n)) (VCore (FulfilledTask this p f resolve reject))
             VUndefined [] s).2 ∧
  resolveNextPromise (call_fn (S (S n))) p x resolve reject s =
    (Return VUndefined,
     settle_store p fulfilled x op (onFulfilledCallbacks op)
       (set_trace (fun t => t ++ [EvGetThen x]) s)).
Proof.
  intros Htag f x Hx H Hp Hpend Hwf resolve reject. split.
  - by apply FulfilledTask_invokes.
  - rewrite resolveNextPromise_data by done. unfold after_read.
    assert (Hf : (getType (then_data x) =? "[object Function]")%string = false).
    { apply String.eqb_neq. intros E. by apply getType_foreign_function in E. }
    rewrite Hf. by apply resolve_call_pending.
Qed.

Lemma callable_handler_but_not_callable_then_witness :
  resolveNextPromise (call_fn 2) 1
    (VForeign "Object" None
       (PData (VForeign "AsyncFunction" (Some [CLog 1]) PAbsent)))
    (VCore (BoundResolve 1)) (VCore (BoundReject 1)) reaction_store =
  (Return VUndefined,
   settle_store 1 fulfilled
     (VForeign "Object" None (PData (VForeign "AsyncFunction" (Some [CLog 1]) PAbsent)))
     fresh []
     (set_trace (fun t => t ++ [EvGetThen
        (VForeign "Object" None
           (PData (VForeign "AsyncFunction" (Some [CLog 1]) PAbsent)))])
        reaction_store)).
Proof.
  refine (proj2 (callable_handler_but_not_callable_then 0 0 1 "AsyncFunction" [CLog 1]
    PAbsent "Object" None reaction_store (mkZPromise fulfilled (VNum 1) [] []) fresh
    _ _ _ _ _ _)).
  - discriminate.
  - reflexivity.
  - reflexivity.
  - reflexivity.
  - reflexivity.
  - split; constructor.
Defined.

(** ** The reaction queues *)

(** X17: only [then] fills the reaction queues.  In every store that a
    program reaches, after its main script and any number of turns of the
    timer queue, each entry of [onFulfilledCallbacks] and of
    [onRejectedCallbacks] of every object is one of the two closures that
    [then] pushes (lines 243 and 262): neither the caller's code nor a
    thenable puts anything else there. *)
Theorem queues_hold_only_reactions (turns fuel : nat) (main : list cmd) :
  wf (run_main turns fuel main).
Proof.
  unfold run_main. eapply evolves_wf; [apply run_loop_evolves|].
  eapply evolves_wf; [apply run_cmds_fn_preserves|].
  intros p o H. done.
Qed.
